(** * DNS-Resolver: a shallow embedding of [resolver.py]

    The development follows the source file function by function:
    the wire codec ([stringToNetwork], [networkToString]), the query
    builder ([constructQuery]), the response accessors ([parseResponse],
    [findType], [findCname], [findMail], [findAnswer], [createNS]) and the
    resolution walk ([sendToServer], [find]), then the reading of the
    root-server list ([networkToList]) and [main] with its loop over the
    root servers.

    Python values are represented as follows.
    - [bytes] objects are lists of [byte];
    - [str] objects are lists of Unicode code points ([N]);
    - non-negative Python integers are [N]; list and buffer positions,
      which the program only ever builds by adding non-negative numbers,
      are [nat];
    - a call either returns, raises one of the exceptions of [exn], or
      does not come back within the recursion budget it was given
      ([Diverge]).

    The functions are given twice. The first definitions run on a
    budget and say nothing of the depth of the stack; they carry the
    statements on single hops and on messages that can be read. The
    module [Depth] follows the same source with the recursion limit of
    the interpreter made explicit, so that a pointer cycle or an
    overlong chain of hops ends as it does in Python, with
    [RecursionError]; it carries the statements on termination, on the
    number of hops and on the failures that [main] catches. What the
    first definitions return or raise, the second give as well once the
    limit leaves room for the calls ([depth_find_settled],
    [depth_main_loop_settled]). *)

From Stdlib Require Import List NArith Bool Arith Lia Ascii.
From Stdlib Require String.
From Stdlib.Strings Require Import Byte.
From Stdlib Require Import DecimalString HexadecimalString.
Import ListNotations.
Import String.StringSyntax.
Delimit Scope string_scope with string.

Set Implicit Arguments.

(** ** Python values *)

Definition bytes := list byte.
Definition str := list N.

(** A literal of the source, as the [str] of its code points. *)
Definition py (s : String.string) : str :=
  map N_of_ascii (String.list_ascii_of_string s).

Arguments py s%_string.

Definition str_eqb (a b : str) : bool :=
  if list_eq_dec N.eq_dec a b then true else false.

(** [bs[a:b]] for [0 <= a <= b] (Python clips both ends to the buffer). *)
Definition slice {A} (l : list A) (a b : nat) : list A :=
  firstn (b - a) (skipn a l).

(** [range(n)] as Python integers. *)
Definition range (n : nat) : list N := map N.of_nat (seq 0 n).

(** ** Outcomes of a call *)

Inductive exn : Set :=
| StructError          (* struct.error *)
| UnicodeEncodeError
| UnicodeDecodeError
| IndexError
| TypeError
| OSError
| RecursionError.

Inductive result (A : Type) : Type :=
| Ret (a : A)
| Raise (e : exn)
| Diverge.

Arguments Ret {A} a.
Arguments Raise {A} e.
Arguments Diverge {A}.

Definition bind {A B} (m : result A) (k : A -> result B) : result B :=
  match m with
  | Ret a => k a
  | Raise e => Raise e
  | Diverge => Diverge
  end.

Notation "x <- m ;; k" := (bind m (fun x => k))
  (at level 61, m at next level, right associativity).

Definition returns {A} (m : result A) : Prop := exists a, m = Ret a.

(** ** The UTF-8 codec behind [str.encode()] and [bytes.decode()] *)

(** The byte of value [n], for [n] in 0..255. *)
Definition byte_of (n : N) : byte :=
  match Byte.of_N n with Some x => x | None => x00 end.

Module Utf8.

Local Open Scope N_scope.

Definition b := byte_of.

(** One code point; surrogates and values above U+10FFFF have no
    encoding. *)
Definition encode_cp (c : N) : option bytes :=
  if c <? 0x80 then Some [b c]
  else if c <? 0x800 then Some [b (0xC0 + c / 64); b (0x80 + c mod 64)]
  else if c <? 0x10000 then
    if (0xD800 <=? c) && (c <=? 0xDFFF) then None
    else Some [b (0xE0 + c / 4096); b (0x80 + (c / 64) mod 64);
               b (0x80 + c mod 64)]
  else if c <? 0x110000 then
    Some [b (0xF0 + c / 262144); b (0x80 + (c / 4096) mod 64);
          b (0x80 + (c / 64) mod 64); b (0x80 + c mod 64)]
  else None.

Fixpoint encode (s : str) : option bytes :=
  match s with
  | [] => Some []
  | c :: r =>
      match encode_cp c, encode r with
      | Some x, Some y => Some (x ++ y)
      | _, _ => None
      end
  end.

Definition between (lo hi n : N) : bool := (lo <=? n) && (n <=? hi).

(** Strict decoding: shortest form only, no surrogates, at most
    U+10FFFF. *)
Fixpoint decode (bs : bytes) : option str :=
  match bs with
  | [] => Some []
  | b0 :: r0 =>
      let n0 := Byte.to_N b0 in
      if n0 <? 0x80 then option_map (cons n0) (decode r0)
      else if between 0xC2 0xDF n0 then
        match r0 with
        | b1 :: r1 =>
            let n1 := Byte.to_N b1 in
            if between 0x80 0xBF n1
            then option_map (cons ((n0 - 0xC0) * 64 + (n1 - 0x80))) (decode r1)
            else None
        | _ => None
        end
      else if between 0xE0 0xEF n0 then
        match r0 with
        | b1 :: b2 :: r2 =>
            let n1 := Byte.to_N b1 in
            let n2 := Byte.to_N b2 in
            let lo := if n0 =? 0xE0 then 0xA0 else 0x80 in
            let hi := if n0 =? 0xED then 0x9F else 0xBF in
            if between lo hi n1 && between 0x80 0xBF n2
            then option_map
                   (cons ((n0 - 0xE0) * 4096 + (n1 - 0x80) * 64 + (n2 - 0x80)))
                   (decode r2)
            else None
        | _ => None
        end
      else if between 0xF0 0xF4 n0 then
        match r0 with
        | b1 :: b2 :: b3 :: r3 =>
            let n1 := Byte.to_N b1 in
            let n2 := Byte.to_N b2 in
            let n3 := Byte.to_N b3 in
            let lo := if n0 =? 0xF0 then 0x90 else 0x80 in
            let hi := if n0 =? 0xF4 then 0x8F else 0xBF in
            if between lo hi n1 && between 0x80 0xBF n2 && between 0x80 0xBF n3
            then option_map
                   (cons ((n0 - 0xF0) * 262144 + (n1 - 0x80) * 4096
                          + (n2 - 0x80) * 64 + (n3 - 0x80)))
                   (decode r3)
            else None
        | _ => None
        end
      else None
  end.

End Utf8.

(** [item.encode()] *)
Definition str_encode (s : str) : result bytes :=
  match Utf8.encode s with
  | Some x => Ret x
  | None => Raise UnicodeEncodeError
  end.

(** [raw.decode()] *)
Definition bytes_decode (raw : bytes) : result str :=
  match Utf8.decode raw with
  | Some s => Ret s
  | None => Raise UnicodeDecodeError
  end.

(** ** The [struct] formats the program uses *)

(** [pack("B", n)]: one unsigned byte, refused outside 0..255. *)
Definition pack_B (n : N) : result bytes :=
  match Byte.of_N n with
  | Some x => Ret [x]
  | None => Raise StructError
  end.

(** The field ["<n>s"] of [pack]: exactly [n] bytes, the argument cut or
    padded with zero bytes. *)
Definition pack_s (n : nat) (data : bytes) : bytes :=
  firstn n data ++ repeat x00 (n - length data).

(** [unpack("!B", raw)[0]]: the buffer must hold exactly one byte. *)
Definition unpack_B (raw : bytes) : result N :=
  match raw with
  | [x] => Ret (Byte.to_N x)
  | _ => Raise StructError
  end.

(** [unpack("<n>s", raw)[0]]: the buffer must hold exactly [n] bytes. *)
Definition unpack_s (n : nat) (raw : bytes) : result bytes :=
  if length raw =? n then Ret raw else Raise StructError.

(** One ["H"] field in network order, refused outside 0..65535. *)
Definition pack_H (n : N) : result bytes :=
  if (n <? 65536)%N then Ret [byte_of (n / 256); byte_of (n mod 256)]
  else Raise StructError.

Definition be16 (hi lo : byte) : N := (Byte.to_N hi * 256 + Byte.to_N lo)%N.

(** [unpack(">6H", raw)]: exactly twelve bytes, six big-endian words. *)
Definition unpack_6H (raw : bytes) : result (list N) :=
  match raw with
  | [a0; a1; b0; b1; c0; c1; d0; d1; e0; e1; f0; f1] =>
      Ret [be16 a0 a1; be16 b0 b1; be16 c0 c1; be16 d0 d1; be16 e0 e1;
           be16 f0 f1]
  | _ => Raise StructError
  end.

(** ** [stringToNetwork] *)

Definition dot : N := 46.

(** [orig_string.split('.')] *)
Fixpoint split_dot (s : str) : list str :=
  match s with
  | [] => [[]]
  | c :: r =>
      if (c =? dot)%N then [] :: split_dot r
      else match split_dot r with
           | h :: t => (c :: h) :: t
           | [] => [[c]]
           end
  end.

(** One turn of the loop: [pack("B<n>s", len(item), item.encode())] with
    [n = len(item)], the number of characters of the label. *)
Definition pack_label (item : str) : result bytes :=
  data <- str_encode item ;;
  n <- pack_B (N.of_nat (length item)) ;;
  Ret (n ++ pack_s (length item) data).

Fixpoint pack_labels (ls : list str) (toReturn : bytes) : result bytes :=
  match ls with
  | [] => Ret toReturn
  | item :: ls' =>
      x <- pack_label item ;;
      pack_labels ls' (toReturn ++ x)
  end.

Definition stringToNetwork (orig_string : str) : result bytes :=
  toReturn <- pack_labels (split_dot orig_string) [] ;;
  z <- pack_B 0 ;;
  Ret (toReturn ++ z).

(** ** [networkToString] *)

(** [(length & 1 << 7) and (length & 1 << 6)]: the shift binds tighter
    than the mask. *)
Definition is_pointer (length : N) : bool :=
  negb (N.land length (N.shiftl 1 7) =? 0)%N
  && negb (N.land length (N.shiftl 1 6) =? 0)%N.

(** The two [for] loops that accumulate [offset]. *)
Definition pointer_offset (length b2 : N) : N :=
  let offset :=
    fold_left (fun offset i => offset + N.land length (N.shiftl 1 i))%N
              (range 6) 0%N in
  fold_left (fun offset i => offset + N.land b2 (N.shiftl 1 i))%N
            (range 8) offset.

(** The [while True] loop with its state ([toReturn], [position]); the
    budget counts loop turns and nested calls alike. *)
Fixpoint networkToString_loop (fuel : nat) (response : bytes)
         (toReturn : str) (position : nat) : result (str * nat) :=
  match fuel with
  | O => Diverge
  | S fuel' =>
      length <- unpack_B (slice response position (position + 1)) ;;
      if (length =? 0)%N then Ret (removelast toReturn, position + 1)
      else if is_pointer length then
        b2 <- unpack_B (slice response (position + 1) (position + 2)) ;;
        let offset := N.to_nat (pointer_offset length b2) in
        r <- networkToString_loop fuel' response [] offset ;;
        Ret (toReturn ++ fst r, position + 2)
      else
        let position1 := position + 1 in
        raw <- unpack_s (N.to_nat length)
                        (slice response position1
                               (position1 + N.to_nat length)) ;;
        label <- bytes_decode raw ;;
        networkToString_loop fuel' response (toReturn ++ label ++ [dot])
                             (position1 + N.to_nat length)
  end.

Definition networkToString (fuel : nat) (response : bytes) (start : nat)
  : result (str * nat) :=
  networkToString_loop fuel response [] start.

(** ** [constructQuery] *)

Definition pack_HH (a b : N) : result bytes :=
  x <- pack_H a ;; y <- pack_H b ;; Ret (x ++ y).

Definition pack_6H (a b c d e f : N) : result bytes :=
  x <- pack_HH a b ;; y <- pack_HH c d ;; z <- pack_HH e f ;;
  Ret (x ++ y ++ z).

Definition constructQuery (ID : N) (hostname : str) (mx : bool)
  : result bytes :=
  let flags := 0%N in
  let num_questions := 1%N in
  let num_answers := 0%N in
  let num_auth := 0%N in
  let num_other := 0%N in
  header <- pack_6H ID flags num_questions num_answers num_auth num_other ;;
  qname <- stringToNetwork hostname ;;
  let qtype := if mx then 15%N else 1%N in
  remainder <- pack_HH qtype 1 ;;
  Ret (header ++ qname ++ remainder).

(** ** [parseResponse] *)

(** [hex(n)] for a non-negative integer. *)
Definition hex (n : N) : str :=
  py "0x" ++ py (HexadecimalString.NilZero.string_of_uint (N.to_hex_uint n)).

(** [s[i]] on a [str]: a one-character [str], or [IndexError]. *)
Definition str_index (s : str) (i : nat) : result str :=
  match nth_error s i with
  | Some c => Ret [c]
  | None => Raise IndexError
  end.

(** The argument is what [sendToServer] handed back: [None] after a
    timeout, which cannot be subscripted. *)
Definition parseResponse (response : option bytes)
  : result (str * str * N) :=
  match response with
  | None => Raise TypeError
  | Some response =>
      data <- unpack_6H (slice response 0 12) ;;
      let flags := nth 1 data 0%N in
      auth <- str_index (hex flags) 3 ;;
      soa <- str_index (hex flags) 5 ;;
      let ns_count := nth 4 data 0%N in
      Ret (auth, soa, ns_count)
  end.

(** ** The accessors of the first record after the question *)

Definition findType (fuel : nat) (data : bytes) : result N :=
  r <- networkToString fuel data 12 ;;
  let start := snd r + 4 in
  r <- networkToString fuel data start ;;
  let start := snd r in
  let type := slice data start (start + 2) in
  match type with
  | [] => Raise IndexError
  | _ => Ret (Byte.to_N (last type x00))
  end.

Definition findCname (fuel : nat) (data : bytes) : result str :=
  r <- networkToString fuel data 12 ;;
  let start := snd r + 4 in
  r <- networkToString fuel data start ;;
  let start := snd r + 10 in
  r <- networkToString fuel data start ;;
  Ret (fst r).

Definition findMail (fuel : nat) (data : bytes) : result str :=
  r <- networkToString fuel data 12 ;;
  let start := snd r + 4 in
  r <- networkToString fuel data start ;;
  let start := snd r + 12 in
  r <- networkToString fuel data start ;;
  Ret (fst r).

(** [str(n)] for a non-negative integer. *)
Definition str_of_int (n : N) : str :=
  py (DecimalString.NilZero.string_of_uint (N.to_uint n)).

(** [socket.inet_ntoa]: four bytes, written in dotted decimal. *)
Definition inet_ntoa (ip : bytes) : result str :=
  match ip with
  | [a; b; c; d] =>
      Ret (str_of_int (Byte.to_N a) ++ [dot] ++ str_of_int (Byte.to_N b)
           ++ [dot] ++ str_of_int (Byte.to_N c) ++ [dot]
           ++ str_of_int (Byte.to_N d))
  | _ => Raise OSError
  end.

Definition findAnswer (fuel : nat) (data : bytes) (ns_count : N)
  : result str :=
  r <- networkToString fuel data 12 ;;
  let start := snd r + 4 in
  r <- networkToString fuel data start ;;
  let start := snd r in
  let ip := slice data (start + 10) (start + 14) in
  inet_ntoa ip.

(** The [for i in range(0, ns_count)] loop of [createNS], with its state
    ([start], [nsList]). *)
Fixpoint createNS_loop (fuel : nat) (data : bytes) (turns : nat)
         (start : nat) (nsList : list str) : result (list str) :=
  match turns with
  | O => Ret nsList
  | S turns' =>
      r <- networkToString fuel data start ;;
      let start := snd r in
      r1 <- networkToString fuel data (start + 10) ;;
      let nsList := nsList ++ [fst r1] in
      r2 <- networkToString fuel data (start + 10) ;;
      let start := snd r2 in
      createNS_loop fuel data turns' start nsList
  end.

Definition createNS (fuel : nat) (data : bytes) (ns_count : N)
  : result (list str) :=
  r <- networkToString fuel data 12 ;;
  let start := snd r + 4 in
  createNS_loop fuel data (N.to_nat ns_count) start [].

(** ** The network, [sendToServer] and [find] *)

(** What the socket does with one query: a datagram comes back, the
    ten-second timeout expires, or sending fails. *)
Inductive net_reply : Type :=
| Reply (datagram : bytes)
| Timeout
| SendError.

(** One round trip as the environment decides it: the draw of
    [random.randint] and the fate of the datagram. *)
Record exchange : Type := { draw : N; reply : net_reply }.

(** [random.randint(lo, hi)]: some integer of the closed interval. *)
Definition randint (lo hi draw : N) : N := (lo + draw mod (hi - lo + 1))%N.

Inductive event : Type :=
| Sent (server : str) (query : bytes).

(** [sock.recv(bufsize)] on a datagram socket: what does not fit the
    buffer is dropped. *)
Definition recv (bufsize : nat) (datagram : bytes) : bytes :=
  firstn bufsize datagram.

Definition traced (A : Type) : Type := (result A * list event)%type.

Definition sendToServer (x : exchange) (server hostname : str) (mx : bool)
  : traced (option bytes) :=
  let random_id := randint 1 65535 (draw x) in
  match constructQuery random_id hostname mx with
  | Ret query =>
      match reply x with
      | Reply datagram => (Ret (Some (recv 4096 datagram)),
                           [Sent server query])
      | Timeout => (Ret None, [Sent server query])
      | SendError => (Raise OSError, [])
      end
  | Raise e => (Raise e, [])
  | Diverge => (Diverge, [])
  end.

(** What the body of [find] does once the response is in: it returns a
    value, or it returns the value of a further call of [find]. *)
Inductive step : Type :=
| Done (val : option str)
| Call (server hostname : str) (mx : bool) (root : str) (count : nat).

Definition find_body (fuel : nat) (response : option bytes)
           (hostname : str) (mx : bool) (root : str) (count : nat)
  : result step :=
  p <- parseResponse response ;;
  let '(auth, soa, ns_count) := p in
  match response with
  | None => Raise TypeError
  | Some response =>
      type <- findType fuel response ;;
      if str_eqb soa (py "3") || (type =? 6)%N then
        if count =? 0 then Ret (Done (Some (py "Invalid TLD")))
        else if count =? 1 then Ret (Done (Some (py "Invalid domain")))
        else Ret (Done (Some (py "Subdomain could not be resolved, SOA")))
      else if (type =? 5)%N then
        cname <- findCname fuel response ;;
        Ret (Call root cname mx root (count + 1))
      else if str_eqb auth (py "4") then
        if mx then
          mailexchange <- findMail fuel response ;;
          Ret (Call root mailexchange false root (count + 1))
        else
          ip <- findAnswer fuel response 1 ;;
          Ret (Done (Some ip))
      else
        nsList <- createNS fuel response ns_count ;;
        match nsList with
        | nsname :: _ => Ret (Call nsname hostname mx root (count + 1))
        | [] => Ret (Done None)
        end
  end.

(** [find], one exchange of the environment per query; when the
    environment has no exchange left the walk is still under way. *)
Fixpoint find (fuel : nat) (env : list exchange) (server hostname : str)
         (mx : bool) (root : str) (count : nat) : traced (option str) :=
  match env with
  | [] => (Diverge, [])
  | x :: env' =>
      let (response, sent) := sendToServer x server hostname mx in
      match response <- response ;;
            find_body fuel response hostname mx root count with
      | Ret (Done val) => (Ret val, sent)
      | Ret (Call server' hostname' mx' root' count') =>
          let (val, sent') :=
            find fuel env' server' hostname' mx' root' count' in
          (val, sent ++ sent')
      | Raise e => (Raise e, sent)
      | Diverge => (Diverge, sent)
      end
  end.

(** ** [networkToList] *)

(** The characters that [str.strip()] removes: those for which
    [str.isspace] holds. *)
Definition is_space (c : N) : bool :=
  ((9 <=? c) && (c <=? 13) || (28 <=? c) && (c <=? 32)
   || (c =? 0x85) || (c =? 0xA0) || (c =? 0x1680)
   || (0x2000 <=? c) && (c <=? 0x200A)
   || (c =? 0x2028) || (c =? 0x2029) || (c =? 0x202F) || (c =? 0x205F)
   || (c =? 0x3000))%N.

Fixpoint lstrip (s : str) : str :=
  match s with
  | c :: r => if is_space c then lstrip r else s
  | [] => []
  end.

Definition rstrip (s : str) : str := rev (lstrip (rev s)).

(** [line.strip()] *)
Definition strip (s : str) : str := rstrip (lstrip s).

Definition newline : N := 10.

(** The lines that iterating over a text file yields: each line keeps
    its newline, the last one may lack it. The text is what the file
    object delivers, decoded and with its line ends already translated
    to newlines. *)
Fixpoint readlines (text : str) : list str :=
  match text with
  | [] => []
  | c :: r =>
      if (c =? newline)%N then [c] :: readlines r
      else match readlines r with
           | l :: ls => (c :: l) :: ls
           | [] => [[c]]
           end
  end.

(** The argument stands for the file named [fileName]: its text, or
    nothing when [open] fails. *)
Definition networkToList (file : option str) : result (list str) :=
  match file with
  | None => Raise OSError
  | Some text => Ret (map strip (readlines text))
  end.

(** ** [main] *)

(** [s.split(sep)] for a separator of one character. *)
Fixpoint split_on (sep : N) (s : str) : list str :=
  match s with
  | [] => [[]]
  | c :: r =>
      if (c =? sep)%N then [] :: split_on sep r
      else match split_on sep r with
           | h :: t => (c :: h) :: t
           | [] => [[c]]
           end
  end.

Definition space : N := 32.

(** What [main] lets out: the lines it prints itself (the progress lines
    of [find] and [sendToServer] are not recorded) and the queries of
    the walks it starts. *)
Inductive output : Type :=
| Line (text : str)
| Packet (e : event).

(** The three ways in which [main] prints the value of [find]. *)
Definition report (mx : bool) (hostname val : str) : str :=
  if mx && (length (split_on space val) <=? 2) then
    py "The mail exchange for " ++ hostname ++ py " resolves to: " ++ val
  else if length (split_on space val) <=? 2 then
    py "The name " ++ hostname ++ py " resolves to: " ++ val
  else val.

Definition failure_line (server : str) : str :=
  py "Hostname could not be resolved using " ++ server.

(** The [for server in networkList] loop. Each walk meets the network
    on its own: [envs] holds the exchanges of the first walk, of the
    second one, and so on. A value ends the loop; the bare [except]
    catches whatever [find] raises, and also the [AttributeError] of
    [val.split] when [find] returned [None]. *)
Fixpoint main_loop (fuel : nat) (networkList : list str)
         (envs : list (list exchange)) (hostname : str) (mx : bool)
  : result unit * list output :=
  match networkList with
  | [] => (Ret tt, [])
  | server :: networkList' =>
      let count := 0 in
      let (val, sent) :=
        find fuel (hd [] envs) server hostname mx server count in
      match val with
      | Ret (Some val) =>
          (Ret tt, map Packet sent ++ [Line (report mx hostname val)])
      | Ret None | Raise _ =>
          let (r, out) :=
            main_loop fuel networkList' (tl envs) hostname mx in
          (r, map Packet sent ++ Line (failure_line server) :: out)
      | Diverge => (Diverge, map Packet sent)
      end
  end.

Definition usage_lines : list output :=
  [Line (py "Incorrect Usage.
For A record lookup use: python resolver.py 'hostname'");
   Line (py "For MX lookup use: python resolver.py -m 'hostname'")].

(** The test on [argv] that makes [main] print its usage. *)
Definition bad_usage (argv : list str) : bool :=
  (length argv <? 2)
  || ((length argv =? 3) && negb (str_eqb (nth 1 argv []) (py "-m")))
  || (3 <? length argv).

Definition main (fuel : nat) (argv : list str) (file : option str)
           (envs : list (list exchange)) : result unit * list output :=
  let mx := false in
  let hostname := py "" in
  let '(printed, mx, hostname) :=
    if bad_usage argv then (usage_lines, mx, hostname)
    else if length argv =? 3 then ([], true, nth 2 argv [])
    else ([], mx, nth 1 argv []) in
  match networkToList file with
  | Ret networkList =>
      let (r, out) := main_loop fuel networkList envs hostname mx in
      (r, printed ++ out)
  | Raise e => (Raise e, printed)
  | Diverge => (Diverge, printed)
  end.

(** ** The recursion limit of the interpreter

    The definitions above give every call a budget and say [Diverge]
    when it runs out. The interpreter does not let a call chain grow
    without end: a call that would exceed its recursion limit raises
    [RecursionError]. The module below follows the same source with
    that limit made explicit: [limit] is the number of frames that may
    still be stacked, a call of a function of [resolver.py] takes one
    of them, and a call with none left raises [RecursionError]. Calls
    into the library are taken not to add to the depth; where one does
    ([random.randint] is itself written in Python) it takes its frames
    off the same room, and the interpreter raises [RecursionError] that
    many frames sooner. The loop of [networkToString] stacks nothing;
    it is given as many turns as the message has bytes, plus one, which
    it cannot use up ([depth_loop_ends]). *)

Module Depth.

(** The call of a function whose body is [body]. *)
Definition call {A} (limit : nat) (body : nat -> result A) : result A :=
  match limit with
  | O => Raise RecursionError
  | S limit' => body limit'
  end.

Definition stringToNetwork (limit : nat) (orig_string : str)
  : result bytes :=
  call limit (fun _ => stringToNetwork orig_string).

(** The [while True] loop; [deref] is the nested call of
    [networkToString] on the same message. *)
Fixpoint networkToString_loop (deref : nat -> result (str * nat))
         (turns : nat) (response : bytes) (toReturn : str)
         (position : nat) : result (str * nat) :=
  match turns with
  | O => Diverge
  | S turns' =>
      length <- unpack_B (slice response position (position + 1)) ;;
      if (length =? 0)%N then Ret (removelast toReturn, position + 1)
      else if is_pointer length then
        b2 <- unpack_B (slice response (position + 1) (position + 2)) ;;
        let offset := N.to_nat (pointer_offset length b2) in
        r <- deref offset ;;
        Ret (toReturn ++ fst r, position + 2)
      else
        let position1 := position + 1 in
        raw <- unpack_s (N.to_nat length)
                        (slice response position1
                               (position1 + N.to_nat length)) ;;
        label <- bytes_decode raw ;;
        networkToString_loop deref turns' response
                             (toReturn ++ label ++ [dot])
                             (position1 + N.to_nat length)
  end.

Fixpoint networkToString (limit : nat) (response : bytes) (start : nat)
         {struct limit} : result (str * nat) :=
  match limit with
  | O => Raise RecursionError
  | S limit' =>
      networkToString_loop (networkToString limit' response)
                           (S (length response)) response [] start
  end.

Definition constructQuery (limit : nat) (ID : N) (hostname : str)
           (mx : bool) : result bytes :=
  call limit (fun limit' =>
    let flags := 0%N in
    let num_questions := 1%N in
    let num_answers := 0%N in
    let num_auth := 0%N in
    let num_other := 0%N in
    header <- pack_6H ID flags num_questions num_answers num_auth
                      num_other ;;
    qname <- stringToNetwork limit' hostname ;;
    let qtype := if mx then 15%N else 1%N in
    remainder <- pack_HH qtype 1 ;;
    Ret (header ++ qname ++ remainder)).

Definition sendToServer (limit : nat) (x : exchange)
           (server hostname : str) (mx : bool) : traced (option bytes) :=
  match limit with
  | O => (Raise RecursionError, [])
  | S limit' =>
      let random_id := randint 1 65535 (draw x) in
      match constructQuery limit' random_id hostname mx with
      | Ret query =>
          match reply x with
          | Reply datagram => (Ret (Some (recv 4096 datagram)),
                               [Sent server query])
          | Timeout => (Ret None, [Sent server query])
          | SendError => (Raise OSError, [])
          end
      | Raise e => (Raise e, [])
      | Diverge => (Diverge, [])
      end
  end.

Definition parseResponse (limit : nat) (response : option bytes)
  : result (str * str * N) :=
  call limit (fun _ => parseResponse response).

Definition findType (limit : nat) (data : bytes) : result N :=
  call limit (fun limit' =>
    r <- networkToString limit' data 12 ;;
    let start := snd r + 4 in
    r <- networkToString limit' data start ;;
    let start := snd r in
    let type := slice data start (start + 2) in
    match type with
    | [] => Raise IndexError
    | _ => Ret (Byte.to_N (last type x00))
    end).

Definition findCname (limit : nat) (data : bytes) : result str :=
  call limit (fun limit' =>
    r <- networkToString limit' data 12 ;;
    let start := snd r + 4 in
    r <- networkToString limit' data start ;;
    let start := snd r + 10 in
    r <- networkToString limit' data start ;;
    Ret (fst r)).

Definition findMail (limit : nat) (data : bytes) : result str :=
  call limit (fun limit' =>
    r <- networkToString limit' data 12 ;;
    let start := snd r + 4 in
    r <- networkToString limit' data start ;;
    let start := snd r + 12 in
    r <- networkToString limit' data start ;;
    Ret (fst r)).

Definition findAnswer (limit : nat) (data : bytes) (ns_count : N)
  : result str :=
  call limit (fun limit' =>
    r <- networkToString limit' data 12 ;;
    let start := snd r + 4 in
    r <- networkToString limit' data start ;;
    let start := snd r in
    let ip := slice data (start + 10) (start + 14) in
    inet_ntoa ip).

Fixpoint createNS_loop (limit : nat) (data : bytes) (turns : nat)
         (start : nat) (nsList : list str) : result (list str) :=
  match turns with
  | O => Ret nsList
  | S turns' =>
      r <- networkToString limit data start ;;
      let start := snd r in
      r1 <- networkToString limit data (start + 10) ;;
      let nsList := nsList ++ [fst r1] in
      r2 <- networkToString limit data (start + 10) ;;
      let start := snd r2 in
      createNS_loop limit data turns' start nsList
  end.

Definition createNS (limit : nat) (data : bytes) (ns_count : N)
  : result (list str) :=
  call limit (fun limit' =>
    r <- networkToString limit' data 12 ;;
    let start := snd r + 4 in
    createNS_loop limit' data (N.to_nat ns_count) start []).

(** The body of [find] once the response is in, with [limit] frames
    left above the frame of [find]. *)
Definition find_body (limit : nat) (response : option bytes)
           (hostname : str) (mx : bool) (root : str) (count : nat)
  : result step :=
  p <- parseResponse limit response ;;
  let '(auth, soa, ns_count) := p in
  match response with
  | None => Raise TypeError
  | Some response =>
      type <- findType limit response ;;
      if str_eqb soa (py "3") || (type =? 6)%N then
        if count =? 0 then Ret (Done (Some (py "Invalid TLD")))
        else if count =? 1 then Ret (Done (Some (py "Invalid domain")))
        else Ret (Done (Some (py "Subdomain could not be resolved, SOA")))
      else if (type =? 5)%N then
        cname <- findCname limit response ;;
        Ret (Call root cname mx root (count + 1))
      else if str_eqb auth (py "4") then
        if mx then
          mailexchange <- findMail limit response ;;
          Ret (Call root mailexchange false root (count + 1))
        else
          ip <- findAnswer limit response 1 ;;
          Ret (Done (Some ip))
      else
        nsList <- createNS limit response ns_count ;;
        match nsList with
        | nsname :: _ => Ret (Call nsname hostname mx root (count + 1))
        | [] => Ret (Done None)
        end
  end.

(** [find]: every hop is one more nested call. *)
Fixpoint find (limit : nat) (env : list exchange) (server hostname : str)
         (mx : bool) (root : str) (count : nat) {struct env}
  : traced (option str) :=
  match limit with
  | O => (Raise RecursionError, [])
  | S limit' =>
      match env with
      | [] => (Diverge, [])
      | x :: env' =>
          let (response, sent) :=
            sendToServer limit' x server hostname mx in
          match response <- response ;;
                find_body limit' response hostname mx root count with
          | Ret (Done val) => (Ret val, sent)
          | Ret (Call server' hostname' mx' root' count') =>
              let (val, sent') :=
                find limit' env' server' hostname' mx' root' count' in
              (val, sent ++ sent')
          | Raise e => (Raise e, sent)
          | Diverge => (Diverge, sent)
          end
      end
  end.

(** The loop of [main], with [limit] frames left above the frame of
    [main]. *)
Fixpoint main_loop (limit : nat) (networkList : list str)
         (envs : list (list exchange)) (hostname : str) (mx : bool)
  : result unit * list output :=
  match networkList with
  | [] => (Ret tt, [])
  | server :: networkList' =>
      let count := 0 in
      let (val, sent) :=
        find limit (hd [] envs) server hostname mx server count in
      match val with
      | Ret (Some val) =>
          (Ret tt, map Packet sent ++ [Line (report mx hostname val)])
      | Ret None | Raise _ =>
          let (r, out) :=
            main_loop limit networkList' (tl envs) hostname mx in
          (r, map Packet sent ++ Line (failure_line server) :: out)
      | Diverge => (Diverge, map Packet sent)
      end
  end.

End Depth.

(** ** The message layout of the specification

    The definitions of this module follow the wording of the
    specification (its data model and its MessageParser), not the source:
    they say what "the authoritative-answer bit", "the response code",
    "a record of the answer section" or "the data field of a record of the
    authority section" are, so that the claims can be stated about
    arbitrary responses and compared with what the program reads. *)

Module Spec.

(** The 16-bit field at [offset]. *)
Definition word (msg : bytes) (offset : nat) : result N :=
  match slice msg offset (offset + 2) with
  | [hi; lo] => Ret (be16 hi lo)
  | _ => Raise StructError
  end.

Definition flags (msg : bytes) : result N := word msg 2.
Definition answer_count (msg : bytes) : result N := word msg 6.
Definition authority_count (msg : bytes) : result N := word msg 8.


Definition rcode (msg : bytes) : result N :=
  f <- flags msg ;; Ret (N.land f 15).

Definition decodeName := networkToString.

(** [questionEnd]: end of the decoded qname plus qtype and qclass. *)
Definition questionEnd (fuel : nat) (msg : bytes) : result nat :=
  r <- decodeName fuel msg 12 ;; Ret (snd r + 4).

Record record : Type :=
  { rtype : N; data_offset : nat; data_length : nat }.

(** [extractRecord]: the name, ten fixed bytes (type, class, ttl, data
    length), then the data. *)
Definition extractRecord (fuel : nat) (msg : bytes) (offset : nat)
  : result (record * nat) :=
  r <- decodeName fuel msg offset ;;
  let fixed := snd r in
  ty <- word msg fixed ;;
  len <- word msg (fixed + 8) ;;
  Ret ({| rtype := ty; data_offset := fixed + 10;
          data_length := N.to_nat len |},
       fixed + 10 + N.to_nat len).

Fixpoint records (fuel : nat) (msg : bytes) (offset : nat) (n : nat)
  : result (list record * nat) :=
  match n with
  | O => Ret ([], offset)
  | S n' =>
      r <- extractRecord fuel msg offset ;;
      rest <- records fuel msg (snd r) n' ;;
      Ret (fst r :: fst rest, snd rest)
  end.

Definition answers (fuel : nat) (msg : bytes) : result (list record * nat) :=
  n <- answer_count msg ;;
  start <- questionEnd fuel msg ;;
  records fuel msg start (N.to_nat n).

Definition authority (fuel : nat) (msg : bytes) : result (list record) :=
  a <- answers fuel msg ;;
  n <- authority_count msg ;;
  r <- records fuel msg (snd a) (N.to_nat n) ;;
  Ret (fst r).

Definition A : N := 1.
Definition SOA : N := 6.
Definition MX : N := 15.

Definition has_type (t : N) (rs : list record) : bool :=
  existsb (fun r => (rtype r =? t)%N) rs.


(** Name error: the authority section contains an SOA record, or the
    response code signals no such name. *)
Definition soa_in_authority (fuel : nat) (msg : bytes) : result bool :=
  a <- authority fuel msg ;; Ret (has_type SOA a).

Definition name_error (fuel : nat) (msg : bytes) : result bool :=
  s <- soa_in_authority fuel msg ;;
  c <- rcode msg ;;
  Ret (s || (c =? 3)%N).



End Spec.

(** ** Building messages

    Serialisers for the layout above, used to write down concrete
    responses. *)

Module Wire.

Definition w16 (n : N) : bytes := [byte_of (n / 256); byte_of (n mod 256)].

(** A name without compression, as [stringToNetwork] writes it. *)
Definition name (s : String.string) : bytes :=
  match stringToNetwork (py s) with
  | Ret x => x
  | _ => []
  end.

Arguments name s%_string.

Definition header (id flags qdcount ancount nscount arcount : N) : bytes :=
  w16 id ++ w16 flags ++ w16 qdcount ++ w16 ancount ++ w16 nscount
      ++ w16 arcount.

Definition question (qname : bytes) (qtype : N) : bytes :=
  qname ++ w16 qtype ++ w16 1.

(** A record of class IN with a zero time-to-live. *)
Definition rr (owner : bytes) (rtype : N) (rdata : bytes) : bytes :=
  owner ++ w16 rtype ++ w16 1 ++ w16 0 ++ w16 0
        ++ w16 (N.of_nat (length rdata)) ++ rdata.

(** A compression pointer to the question name at offset 12. *)
Definition to_qname : bytes := [xc0; x0c].

Definition answered (datagram : bytes) : exchange :=
  {| draw := 0; reply := Reply datagram |}.

End Wire.

(** ** Concrete messages used below *)

Module Vectors.

Import Wire.

(** A name at offset 256 and, after it, a pointer to it. *)
Definition far_pointer : bytes :=
  repeat x00 256 ++ [x01; x61; x00] ++ [xc1; x00].

(** A pointer to itself, and a pointer to the name that follows it. *)
Definition self_pointer : bytes := [xc0; x00].
Definition forward_pointer : bytes := [xc0; x02; x01; x61; x00].

(** A name held by a pointer that refers backwards into the label before
    it. *)
Definition backward_pointer : bytes :=
  name "example" ++ name "www" ++ [x03; x6e; x73; x31; xc0; x00].

(** An authoritative answer: one A record. *)
Definition a_answer : bytes :=
  header 1 0x8400 1 1 0 0 ++ question (name "www.example") 1
    ++ rr to_qname 1 [x5d; xb8; xd8; x22].

(** The same answer, its question name replaced by a pointer to
    itself. *)
Definition pointer_cycle : bytes :=
  header 1 0x8400 1 1 0 0 ++ question [xc0; x0c] 1
    ++ rr to_qname 1 [x5d; xb8; xd8; x22].

(** A referral: two NS records in the authority section. *)
Definition referral : bytes :=
  header 1 0x8000 1 0 2 0 ++ question (name "www.example") 1
    ++ rr (name "example") 2 (name "ns1.example")
    ++ rr (name "example") 2 (name "ns2.example").

(** An alias whose target has no data: a CNAME in the answers, the SOA
    of the zone in the authority section, response code 0. *)
Definition cname_with_soa : bytes :=
  header 1 0x8400 1 1 1 0 ++ question (name "www.example") 1
    ++ rr to_qname 5 (name "host.example")
    ++ rr (name "example") 6 (name "ns.example" ++ name "admin.example"
                                   ++ repeat x00 20).

(** No data for the name: the SOA of the zone is the first record,
    response code 0. *)
Definition no_data : bytes :=
  header 1 0x8400 1 0 1 0 ++ question (name "www.example") 1
    ++ rr (name "example") 6 (name "ns.example" ++ name "admin.example"
                                   ++ repeat x00 20).



(** A referral that names a single server. *)
Definition delegation : bytes :=
  header 1 0x8000 1 0 1 0 ++ question (name "www.example") 1
    ++ rr (name "example") 2 (name "ns.example").

Definition root_server : str := py "198.41.0.4".

(** A label of 64 characters, and a name of five labels of 63. *)
Definition long_label : str := repeat 97%N 64.
Definition long_name : str :=
  let l := repeat 97%N 63 in
  l ++ [dot] ++ l ++ [dot] ++ l ++ [dot] ++ l ++ [dot] ++ l.

(** The one-letter name U+00E9. *)
Definition e_acute : str := [0xE9%N].

End Vectors.

(** ** Auxiliary definitions for the proofs *)

(** The digits of [hex] on a 16-bit value, written out. *)
Definition hex_digit (d : N) : N :=
  if (d <? 10)%N then (48 + d)%N else (87 + d)%N.

Definition hex16 (f : N) : str :=
  py "0x" ++
  (if (f <? 16)%N then [hex_digit f]
   else if (f <? 256)%N then [hex_digit (f / 16); hex_digit (f mod 16)]
   else if (f <? 4096)%N then
     [hex_digit (f / 256); hex_digit ((f / 16) mod 16); hex_digit (f mod 16)]
   else [hex_digit (f / 4096); hex_digit ((f / 256) mod 16);
         hex_digit ((f / 16) mod 16); hex_digit (f mod 16)]).

(** [P] holds of the [n] numbers from [k] on. *)
Fixpoint all_from (P : N -> bool) (k : N) (n : nat) : bool :=
  match n with
  | O => true
  | S n' => P k && all_from P (N.succ k) n'
  end.

(** The name-error messages of [find], by hop count. *)
Definition name_error_message (count : nat) : str :=
  match count with
  | 0 => py "Invalid TLD"
  | 1 => py "Invalid domain"
  | _ => py "Subdomain could not be resolved, SOA"
  end.

(** A label as the wire holds it: a length byte, then one byte per
    character. *)
Definition label_wire (l : str) : bytes :=
  byte_of (N.of_nat (length l)) :: map byte_of l.

Definition ascii_str (s : str) : Prop := Forall (fun c => (c < 128)%N) s.

(** The labels of a name written back with their separators. *)
Definition dotted (ls : list str) : str :=
  concat (map (fun l => l ++ [dot]) ls).

(** A label that [networkToString] reads back: ASCII, not empty, and
    short enough for its length byte not to look like a pointer. *)
Definition good_label (l : str) : Prop :=
  ascii_str l /\ l <> [] /\ length l < 192.

(** The query that [sendToServer] sends in the exchange [x]. *)
Definition the_query (x : exchange) (hostname : str) (mx : bool) : bytes :=
  match constructQuery (randint 1 65535 (draw x)) hostname mx with
  | Ret query => query
  | _ => []
  end.

(** A run of exchanges that all bring the same datagram back. *)
Definition replies (datagram : bytes) (draws : list N) : list exchange :=
  map (fun d => {| draw := d; reply := Reply datagram |}) draws.


(** The number that a string of decimal digits writes. *)
Definition digits_value (s : str) : N :=
  fold_left (fun acc c => acc * 10 + (c - 48))%N s 0%N.

(** A walk that gives [main] no value: [find] raised, or returned
    [None]. *)
Definition attempt_fails (r : result (option str)) : Prop :=
  r = Ret None \/ exists e, r = Raise e.

(** What [main] lets out for the walks of [servers], one after the
    other, when none of them gives a value; every walk starts with
    [limit] frames left above the frame of [main]. *)
Fixpoint failed_output (limit : nat) (servers : list str)
         (envs : list (list exchange)) (hostname : str) (mx : bool)
  : list output :=
  match servers with
  | [] => []
  | server :: servers' =>
      map Packet
          (snd (Depth.find limit (hd [] envs) server hostname mx server 0))
        ++ Line (failure_line server)
        :: failed_output limit servers' (tl envs) hostname mx
  end.

(** Every walk of [servers] fails. *)
Fixpoint all_fail (limit : nat) (servers : list str)
         (envs : list (list exchange)) (hostname : str) (mx : bool)
  : Prop :=
  match servers with
  | [] => True
  | server :: servers' =>
      attempt_fails
        (fst (Depth.find limit (hd [] envs) server hostname mx server 0))
      /\ all_fail limit servers' (tl envs) hostname mx
  end.

(** The line that announces a resolution. *)
Definition resolves_line (mx : bool) (hostname val : str) : str :=
  (if mx then py "The mail exchange for " else py "The name ")
    ++ hostname ++ py " resolves to: " ++ val.

(** [m1] is the outcome of [m2] on a stack that may be less deep: the
    same, or [RecursionError]. *)
Definition short {A} (m1 m2 : result A) : Prop :=
  m1 = m2 \/ m1 = Raise RecursionError.

(** [m2] is the outcome [m1] of a run on a budget, if that run came
    back. *)
Definition settled {A} (m1 m2 : result A) : Prop :=
  m1 <> Diverge -> m2 = m1.

(** * Proofs *)

Unset Implicit Arguments.

(** ** Bytes, words and slices *)

Lemma to_N_byte_of (n : N) : (n < 256)%N -> Byte.to_N (byte_of n) = n.
Proof.
  intros H. unfold byte_of.
  destruct (Byte.of_N n) as [x|] eqn:E.
  - now apply Byte.to_of_N.
  - apply Byte.of_N_None_iff in E. lia.
Qed.

Lemma byte_of_to_N (x : byte) : byte_of (Byte.to_N x) = x.
Proof. unfold byte_of. now rewrite Byte.of_to_N. Qed.

Lemma to_N_lt (x : byte) : (Byte.to_N x < 256)%N.
Proof. pose proof (Byte.to_N_bounded x). lia. Qed.

Lemma be16_lt (hi lo : byte) : (be16 hi lo < 65536)%N.
Proof.
  unfold be16. pose proof (to_N_lt hi). pose proof (to_N_lt lo). lia.
Qed.

Lemma be16_byte_of (n : N) :
  (n < 65536)%N -> be16 (byte_of (n / 256)) (byte_of (n mod 256)) = n.
Proof.
  intros H. unfold be16.
  rewrite !to_N_byte_of.
  - rewrite (N.div_mod n 256) at 3 by lia. lia.
  - apply N.mod_lt. lia.
  - apply N.Div0.div_lt_upper_bound. lia.
Qed.

Lemma pack_B_ok (n : N) : (n < 256)%N -> pack_B n = Ret [byte_of n].
Proof.
  intros H. unfold pack_B, byte_of.
  destruct (Byte.of_N n) eqn:E; [reflexivity|].
  apply Byte.of_N_None_iff in E. lia.
Qed.

Lemma pack_B_fail (n : N) : (255 < n)%N -> pack_B n = Raise StructError.
Proof.
  intros H. unfold pack_B.
  apply Byte.of_N_None_iff in H. now rewrite H.
Qed.

Lemma slice_nth_error {A} (l : list A) (p : nat) :
  slice l p (p + 1) = match nth_error l p with Some x => [x] | None => [] end.
Proof.
  unfold slice. replace (p + 1 - p) with 1 by lia.
  revert l. induction p as [|p IH]; intros [|x l]; simpl; try reflexivity.
  - apply IH.
Qed.

Lemma slice_app_at {A} (pre l post : list A) (n : nat) :
  n = length l ->
  slice (pre ++ l ++ post) (length pre) (length pre + n) = l.
Proof.
  intros ->. unfold slice.
  replace (length pre + length l - length pre) with (length l) by lia.
  rewrite skipn_app, skipn_all, Nat.sub_diag. simpl.
  rewrite firstn_app, firstn_all, Nat.sub_diag. simpl.
  apply app_nil_r.
Qed.

(** ** [hex] on the sixteen bits of the flags *)

Lemma all_from_spec (P : N -> bool) (n : nat) :
  forall k, all_from P k n = true ->
  forall f, (k <= f)%N -> (f < k + N.of_nat n)%N -> P f = true.
Proof.
  induction n as [|n IH]; intros k H f Hk Hf.
  - lia.
  - simpl in H. apply andb_true_iff in H. destruct H as [H0 H1].
    destruct (N.eq_dec f k) as [->|Hne]; [assumption|].
    apply (IH (N.succ k)); [assumption|lia|lia].
Qed.

Lemma hex16_table :
  all_from (fun f => str_eqb (hex f) (hex16 f)) 0 (N.to_nat 65536) = true.
Proof. vm_compute. reflexivity. Qed.

Lemma hex_hex16 (f : N) : (f < 65536)%N -> hex f = hex16 f.
Proof.
  intros H.
  pose proof (all_from_spec _ _ _ hex16_table f) as T.
  unfold str_eqb in T.
  destruct (list_eq_dec N.eq_dec (hex f) (hex16 f)) as [E|E]; [exact E|].
  assert (false = true) by (apply T; lia). discriminate.
Qed.

Lemma hex16_short (f n : N) :
  (f < 4096)%N ->
  (auth <- str_index (hex16 f) 3 ;; soa <- str_index (hex16 f) 5 ;;
   Ret (auth, soa, n)) = Raise IndexError.
Proof.
  intros H. unfold hex16.
  destruct (f <? 16)%N; [reflexivity|].
  destruct (f <? 256)%N; [reflexivity|].
  destruct (f <? 4096)%N eqn:E; [reflexivity|].
  apply N.ltb_ge in E. lia.
Qed.

Lemma hex16_long (f : N) :
  (4096 <= f)%N ->
  hex16 f = py "0x" ++ [hex_digit (f / 4096); hex_digit ((f / 256) mod 16);
                        hex_digit ((f / 16) mod 16); hex_digit (f mod 16)].
Proof.
  intros H. unfold hex16.
  destruct (f <? 16)%N eqn:E1; [apply N.ltb_lt in E1; lia|].
  destruct (f <? 256)%N eqn:E2; [apply N.ltb_lt in E2; lia|].
  destruct (f <? 4096)%N eqn:E3; [apply N.ltb_lt in E3; lia|].
  reflexivity.
Qed.

Lemma hex16_length (f : N) : length (hex16 f) = 6 <-> (4096 <= f)%N.
Proof.
  unfold hex16.
  destruct (f <? 16)%N eqn:E1; [apply N.ltb_lt in E1; simpl; split; [discriminate|lia]|].
  destruct (f <? 256)%N eqn:E2; [apply N.ltb_lt in E2; simpl; split; [discriminate|lia]|].
  destruct (f <? 4096)%N eqn:E3; [apply N.ltb_lt in E3; simpl; split; [discriminate|lia]|].
  apply N.ltb_ge in E3. simpl. split; [intros _; exact E3|reflexivity].
Qed.

(** ** [parseResponse] *)

(** The header of a response of twelve bytes or more, as [parseResponse]
    reads it. *)
Lemma parseResponse_header (response : bytes) :
  12 <= length response ->
  exists flags ns_count,
    Spec.flags response = Ret flags /\ (flags < 65536)%N /\
    Spec.authority_count response = Ret ns_count /\
    parseResponse (Some response) =
      (auth <- str_index (hex16 flags) 3 ;;
       soa <- str_index (hex16 flags) 5 ;;
       Ret (auth, soa, ns_count)).
Proof.
  intros H.
  do 12 (destruct response as [|? response]; [simpl in H; lia|]).
  eexists. eexists.
  split; [reflexivity|]. split; [apply be16_lt|]. split; [reflexivity|].
  unfold parseResponse. cbn [slice Nat.sub skipn firstn unpack_6H bind nth].
  rewrite hex_hex16 by apply be16_lt. reflexivity.
Qed.

Lemma parseResponse_short (response : bytes) :
  length response < 12 -> parseResponse (Some response) = Raise StructError.
Proof.
  intros H. unfold parseResponse.
  do 12 (destruct response as [|? response]; [reflexivity|]).
  simpl in H. lia.
Qed.

Lemma parseResponse_low_flags (response : bytes) (flags : N) :
  12 <= length response -> Spec.flags response = Ret flags ->
  (flags < 4096)%N -> parseResponse (Some response) = Raise IndexError.
Proof.
  intros H Hf Hlt.
  destruct (parseResponse_header response H) as (f & n & Ef & _ & _ & ->).
  rewrite Ef in Hf. injection Hf as ->.
  now apply hex16_short.
Qed.

Lemma parseResponse_fields (response : bytes) (flags : N) :
  12 <= length response -> Spec.flags response = Ret flags ->
  (4096 <= flags)%N ->
  exists ns_count,
    Spec.authority_count response = Ret ns_count /\
    parseResponse (Some response) =
      Ret ([hex_digit ((flags / 256) mod 16)], [hex_digit (flags mod 16)],
           ns_count).
Proof.
  intros H Hf Hge.
  destruct (parseResponse_header response H) as (f & n & Ef & _ & En & ->).
  rewrite Ef in Hf. injection Hf as ->.
  exists n. split; [exact En|].
  rewrite (hex16_long flags Hge). reflexivity.
Qed.

(** C10. [parseResponse] is partial: on a header of twelve bytes whose
    flags are below 0x1000 the indexing of [hex(flags)] raises
    [IndexError]; it returns exactly when [hex(flags)] has four digits
    after its ["0x"], that is when the flags are 0x1000 or more. *)
Theorem parseResponse_partial (response : bytes) (flags : N) :
  12 <= length response -> Spec.flags response = Ret flags ->
  ((flags < 0x1000)%N -> parseResponse (Some response) = Raise IndexError)
  /\ (returns (parseResponse (Some response)) <-> length (hex flags) = 2 + 4)
  /\ (length (hex flags) = 2 + 4 <-> (0x1000 <= flags)%N).
Proof.
  intros H Hf.
  destruct (parseResponse_header response H) as (f & n & Ef & Hlt & _ & _).
  rewrite Ef in Hf. injection Hf as ->.
  rewrite (hex_hex16 flags Hlt).
  split; [|split].
  - intros Hlow. now apply (parseResponse_low_flags response flags).
  - split.
    + intros [r Hr]. apply hex16_length.
      destruct (N.lt_ge_cases flags 4096) as [Hlow|Hge]; [|exact Hge].
      rewrite (parseResponse_low_flags response flags H Ef Hlow) in Hr.
      discriminate.
    + intros Hlen. apply hex16_length in Hlen.
      destruct (parseResponse_fields response flags H Ef Hlen) as (k & _ & ->).
      eexists. reflexivity.
  - apply hex16_length.
Qed.

Lemma parseResponse_partial_witness :
  parseResponse (Some (Wire.header 1 0 1 0 0 0)) = Raise IndexError.
Proof.
  refine (proj1 (parseResponse_partial (Wire.header 1 0 1 0 0 0) 0 _ _) _).
  - simpl. lia.
  - reflexivity.
  - reflexivity.
Defined.

(** ** [constructQuery] *)

Lemma pack_H_ok (n : N) :
  (n < 65536)%N -> pack_H n = Ret (Wire.w16 n).
Proof.
  intros H. unfold pack_H. apply N.ltb_lt in H. now rewrite H.
Qed.

(** C9. For every 16-bit transaction ID, hostname and flag:
    when the name encodes, [constructQuery] returns a header carrying the ID,
    flags 0, one question and no other record, followed by the encoded
    name, the type (15 for MX, 1 otherwise) and class 1, and two queries
    for the same name and flag agree on everything after the ID; when
    the name does not encode, the failure of [stringToNetwork] is the
    outcome of [constructQuery]. *)
Theorem constructQuery_layout (ID ID' : N) (hostname : str) (mx : bool) :
  (ID < 65536)%N -> (ID' < 65536)%N ->
  match stringToNetwork hostname with
  | Ret qname =>
      exists query query',
        constructQuery ID hostname mx = Ret query /\
        constructQuery ID' hostname mx = Ret query' /\
        unpack_6H (slice query 0 12) = Ret [ID; 0; 1; 0; 0; 0]%N /\
        skipn 12 query
          = qname ++ Wire.w16 (if mx then 15 else 1) ++ Wire.w16 1 /\
        skipn 2 query = skipn 2 query'
  | Raise e => constructQuery ID hostname mx = Raise e
  | Diverge => constructQuery ID hostname mx = Diverge
  end.
Proof.
  intros H H'. unfold constructQuery, pack_6H, pack_HH.
  rewrite !(pack_H_ok ID H), !(pack_H_ok ID' H').
  rewrite !(pack_H_ok 0), !(pack_H_ok 1) by reflexivity.
  assert (Hq : pack_H (if mx then 15 else 1)
               = Ret (Wire.w16 (if mx then 15 else 1)))
    by (destruct mx; reflexivity).
  rewrite Hq.
  destruct (stringToNetwork hostname) as [qname|e|]; cbn [bind];
    [|reflexivity|reflexivity].
  eexists. eexists. split; [reflexivity|]. split; [reflexivity|].
  split; [|split].
  - unfold Wire.w16 at 1. cbn [app slice Nat.sub skipn firstn unpack_6H].
    rewrite (be16_byte_of ID H). reflexivity.
  - reflexivity.
  - reflexivity.
Qed.

Lemma constructQuery_layout_witness :
  exists query query',
    constructQuery 0x1234 (py "a.bc") true = Ret query /\
    constructQuery 0x4321 (py "a.bc") true = Ret query' /\
    unpack_6H (slice query 0 12) = Ret [0x1234; 0; 1; 0; 0; 0]%N /\
    skipn 12 query
      = [x01; x61; x02; x62; x63; x00] ++ Wire.w16 15 ++ Wire.w16 1 /\
    skipn 2 query = skipn 2 query'.
Proof.
  refine (constructQuery_layout 0x1234 0x4321 (py "a.bc") true _ _);
    reflexivity.
Defined.

(** ** The codec on ASCII text *)

Lemma encode_ascii (s : str) :
  ascii_str s -> Utf8.encode s = Some (map byte_of s).
Proof.
  induction 1 as [|c s Hc Hs IH]; [reflexivity|].
  simpl. unfold Utf8.encode_cp.
  apply N.ltb_lt in Hc. rewrite Hc, IH. reflexivity.
Qed.

Lemma decode_ascii (s : str) :
  ascii_str s -> Utf8.decode (map byte_of s) = Some s.
Proof.
  induction 1 as [|c s Hc Hs IH]; [reflexivity|].
  cbn [map Utf8.decode].
  rewrite to_N_byte_of by lia.
  apply N.ltb_lt in Hc. rewrite Hc, IH. reflexivity.
Qed.

Lemma pack_s_exact (data : bytes) : pack_s (length data) data = data.
Proof.
  unfold pack_s. rewrite firstn_all, Nat.sub_diag. apply app_nil_r.
Qed.

Lemma pack_label_ascii (item : str) :
  ascii_str item -> length item <= 255 ->
  pack_label item = Ret (label_wire item).
Proof.
  intros Ha Hl. unfold pack_label, str_encode.
  rewrite (encode_ascii item Ha). cbn [bind].
  rewrite pack_B_ok by lia. cbn [bind app].
  rewrite <- (length_map byte_of item) at 2. rewrite pack_s_exact.
  reflexivity.
Qed.

Lemma pack_label_too_long (item : str) :
  ascii_str item -> 255 < length item ->
  pack_label item = Raise StructError.
Proof.
  intros Ha Hl. unfold pack_label, str_encode.
  rewrite (encode_ascii item Ha). cbn [bind].
  rewrite pack_B_fail by lia. reflexivity.
Qed.

Lemma pack_labels_ascii (ls : list str) :
  Forall ascii_str ls -> Forall (fun l => length l <= 255) ls ->
  forall toReturn,
    pack_labels ls toReturn = Ret (toReturn ++ concat (map label_wire ls)).
Proof.
  induction ls as [|l ls IH]; intros Ha Hl toReturn.
  - simpl. now rewrite app_nil_r.
  - inversion Ha; subst. inversion Hl; subst.
    cbn [pack_labels]. rewrite pack_label_ascii by assumption. cbn [bind].
    rewrite IH by assumption. cbn [map concat]. now rewrite app_assoc.
Qed.

Lemma pack_labels_too_long (ls : list str) :
  Forall ascii_str ls -> Exists (fun l => 255 < length l) ls ->
  forall toReturn, pack_labels ls toReturn = Raise StructError.
Proof.
  induction ls as [|l ls IH]; intros Ha Hl toReturn.
  - inversion Hl.
  - inversion Ha; subst. cbn [pack_labels].
    destruct (le_lt_dec (length l) 255) as [Hs|Hs].
    + rewrite pack_label_ascii by assumption. cbn [bind].
      apply IH; [assumption|]. inversion Hl; subst; [lia|assumption].
    + now rewrite pack_label_too_long.
Qed.

Lemma split_dot_cons (s : str) : exists h t, split_dot s = h :: t.
Proof.
  induction s as [|c r IH]; simpl; [eauto|].
  destruct (c =? dot)%N; [eauto|].
  destruct IH as (h & t & ->). eauto.
Qed.

Lemma split_dot_Forall (P : N -> Prop) (s : str) :
  Forall P s -> Forall (Forall P) (split_dot s).
Proof.
  induction 1 as [|c r Hc Hr IH]; simpl.
  - constructor; constructor.
  - destruct (c =? dot)%N; [constructor; [constructor|assumption]|].
    destruct (split_dot r) as [|h t]; [repeat constructor; assumption|].
    inversion IH; subst. constructor; [constructor; assumption|assumption].
Qed.

Lemma dotted_split_dot (s : str) : dotted (split_dot s) = s ++ [dot].
Proof.
  induction s as [|c r IH]; [reflexivity|].
  simpl. destruct (c =? dot)%N eqn:E.
  - apply N.eqb_eq in E. subst c. unfold dotted in *. simpl. now rewrite IH.
  - destruct (split_dot_cons r) as (h & t & Hr). rewrite Hr in *.
    unfold dotted in *. simpl in *. now rewrite IH.
Qed.

Lemma stringToNetwork_labels (name : str) :
  ascii_str name ->
  Forall (fun l => length l <= 255) (split_dot name) ->
  stringToNetwork name
  = Ret (concat (map label_wire (split_dot name)) ++ [x00]).
Proof.
  intros Ha H. pose proof (split_dot_Forall _ name Ha) as Hls.
  unfold stringToNetwork.
  rewrite pack_labels_ascii by assumption. reflexivity.
Qed.

(** C8, as the code has it. [stringToNetwork] checks neither the 63
    bytes of a label nor the 255 bytes of a name: on a name of ASCII
    characters it writes every label as a length byte followed by the
    bytes of the label, then a zero byte, as long as no label has more
    than 255 characters; with such a label it raises [struct.error]. *)
Theorem stringToNetwork_ascii (name : str) :
  ascii_str name ->
  (Forall (fun l => length l <= 255) (split_dot name) ->
   stringToNetwork name
     = Ret (concat (map label_wire (split_dot name)) ++ [x00]))
  /\ (Exists (fun l => 255 < length l) (split_dot name) ->
      stringToNetwork name = Raise StructError).
Proof.
  intros Ha. split; intros H.
  - now apply stringToNetwork_labels.
  - pose proof (split_dot_Forall _ name Ha) as Hls.
    unfold stringToNetwork.
    rewrite pack_labels_too_long by assumption. reflexivity.
Qed.

Lemma stringToNetwork_ascii_witness :
  stringToNetwork (py "www.sandiego.edu")
  = Ret ([x03; x77; x77; x77; x08; x73; x61; x6e; x64; x69; x65; x67; x6f;
          x03; x65; x64; x75] ++ [x00]).
Proof.
  refine (proj1 (stringToNetwork_ascii (py "www.sandiego.edu") _) _).
  - repeat constructor.
  - repeat constructor.
Defined.

(** C8, the claim as stated fails: a label of 64 bytes is encoded, and
    so is a name whose encoding takes 321 bytes. *)
Lemma stringToNetwork_no_length_check :
  stringToNetwork Vectors.long_label
    = Ret (x40 :: repeat x61 64 ++ [x00])
  /\ exists wire, stringToNetwork Vectors.long_name = Ret wire
                  /\ length wire = 321.
Proof.
  split; [vm_compute; reflexivity|].
  eexists. split; vm_compute; reflexivity.
Qed.

(** ** The length byte: literal label or pointer *)

Lemma is_pointer_table :
  all_from (fun n => Bool.eqb (is_pointer n) (192 <=? n)%N) 0 256 = true.
Proof. vm_compute. reflexivity. Qed.

Lemma is_pointer_spec (n : N) :
  (n < 256)%N -> is_pointer n = (192 <=? n)%N.
Proof.
  intros H. apply eqb_prop.
  apply (all_from_spec _ _ _ is_pointer_table n); lia.
Qed.

Lemma low_bits_table :
  all_from (fun n => (pointer_offset n 0 =? n mod 64)%N
                     && (pointer_offset 0 n =? n)%N) 0 256 = true.
Proof. vm_compute. reflexivity. Qed.

Lemma pointer_offset_split (length b2 : N) :
  pointer_offset length b2 = (pointer_offset length 0 + pointer_offset 0 b2)%N.
Proof.
  unfold pointer_offset, range. cbn [seq map fold_left].
  rewrite ?N.land_0_l, ?N.add_0_r, ?N.add_0_l. lia.
Qed.

(** What the two loops add up to: the low six bits of the first byte
    plus the second byte. The first byte is not shifted. *)
Lemma pointer_offset_spec (length b2 : N) :
  (length < 256)%N -> (b2 < 256)%N ->
  pointer_offset length b2 = (length mod 64 + b2)%N.
Proof.
  intros Hl Hb. rewrite pointer_offset_split.
  pose proof (all_from_spec _ _ _ low_bits_table length) as T1.
  pose proof (all_from_spec _ _ _ low_bits_table b2) as T2.
  cbv beta in T1, T2.
  assert (H1 : (0 <= length)%N) by lia. assert (H2 : (0 <= b2)%N) by lia.
  specialize (T1 H1 Hl). specialize (T2 H2 Hb).
  apply andb_true_iff in T1. apply andb_true_iff in T2.
  destruct T1 as [T1 _]. destruct T2 as [_ T2].
  apply N.eqb_eq in T1. apply N.eqb_eq in T2. now rewrite T1, T2.
Qed.

(** ** One turn of the loop of [networkToString] *)

Lemma loop_S (fuel : nat) (response : bytes) (toReturn : str)
      (position : nat) :
  networkToString_loop (S fuel) response toReturn position =
  (length <- unpack_B (slice response position (position + 1)) ;;
   if (length =? 0)%N then Ret (removelast toReturn, position + 1)
   else if is_pointer length then
     b2 <- unpack_B (slice response (position + 1) (position + 2)) ;;
     let offset := N.to_nat (pointer_offset length b2) in
     r <- networkToString_loop fuel response [] offset ;;
     Ret (toReturn ++ fst r, position + 2)
   else
     let position1 := position + 1 in
     raw <- unpack_s (N.to_nat length)
                     (slice response position1
                            (position1 + N.to_nat length)) ;;
     label <- bytes_decode raw ;;
     networkToString_loop fuel response (toReturn ++ label ++ [dot])
                          (position1 + N.to_nat length)).
Proof. reflexivity. Qed.

Lemma unpack_B_at (response : bytes) (position : nat) :
  unpack_B (slice response position (position + 1)) =
  match nth_error response position with
  | Some x => Ret (Byte.to_N x)
  | None => Raise StructError
  end.
Proof.
  rewrite slice_nth_error. now destruct (nth_error response position).
Qed.

Lemma loop_truncated (fuel : nat) (response : bytes) (toReturn : str)
      (position : nat) :
  nth_error response position = None ->
  networkToString_loop (S fuel) response toReturn position
  = Raise StructError.
Proof. intros H. rewrite loop_S, unpack_B_at, H. reflexivity. Qed.

Lemma loop_end (fuel : nat) (response : bytes) (toReturn : str)
      (position : nat) :
  nth_error response position = Some x00 ->
  networkToString_loop (S fuel) response toReturn position
  = Ret (removelast toReturn, position + 1).
Proof. intros H. rewrite loop_S, unpack_B_at, H. reflexivity. Qed.

Lemma loop_pointer (fuel : nat) (response : bytes) (toReturn : str)
      (position : nat) (x y : byte) :
  nth_error response position = Some x ->
  is_pointer (Byte.to_N x) = true ->
  nth_error response (position + 1) = Some y ->
  networkToString_loop (S fuel) response toReturn position =
  (r <- networkToString_loop fuel response []
          (N.to_nat (pointer_offset (Byte.to_N x) (Byte.to_N y))) ;;
   Ret (toReturn ++ fst r, position + 2)).
Proof.
  intros Hx Hp Hy. rewrite loop_S, unpack_B_at, Hx. cbn [bind].
  assert (Hz : (Byte.to_N x =? 0)%N = false).
  { destruct (Byte.to_N x =? 0)%N eqn:E; [|reflexivity].
    apply N.eqb_eq in E. rewrite E in Hp. discriminate. }
  rewrite Hz, Hp.
  replace (position + 2) with (position + 1 + 1) at 1 by lia.
  rewrite unpack_B_at, Hy. reflexivity.
Qed.

Lemma loop_label (fuel : nat) (response : bytes) (toReturn : str)
      (position : nat) (x : byte) (label : str) :
  nth_error response position = Some x ->
  Byte.to_N x <> 0%N ->
  is_pointer (Byte.to_N x) = false ->
  length (slice response (position + 1)
                (position + 1 + N.to_nat (Byte.to_N x)))
    = N.to_nat (Byte.to_N x) ->
  Utf8.decode (slice response (position + 1)
                     (position + 1 + N.to_nat (Byte.to_N x))) = Some label ->
  networkToString_loop (S fuel) response toReturn position =
  networkToString_loop fuel response (toReturn ++ label ++ [dot])
                       (position + 1 + N.to_nat (Byte.to_N x)).
Proof.
  intros Hx Hz Hp Hl Hd. rewrite loop_S, unpack_B_at, Hx. cbn [bind].
  apply N.eqb_neq in Hz. rewrite Hz, Hp. cbv zeta.
  unfold unpack_s. rewrite Hl, Nat.eqb_refl. cbn [bind].
  unfold bytes_decode. rewrite Hd. reflexivity.
Qed.

(** More budget does not change an outcome that was reached. *)
Lemma loop_mono (fuel : nat) :
  forall (response : bytes) (toReturn : str) (position : nat),
    networkToString_loop fuel response toReturn position <> Diverge ->
    forall fuel', fuel <= fuel' ->
      networkToString_loop fuel' response toReturn position
      = networkToString_loop fuel response toReturn position.
Proof.
  induction fuel as [|fuel IH]; intros response toReturn position H fuel' Hle.
  - exfalso. apply H. reflexivity.
  - destruct fuel' as [|fuel']; [lia|].
    assert (Hle' : fuel <= fuel') by lia.
    rewrite loop_S in H. rewrite !loop_S.
    destruct (unpack_B (slice response position (position + 1)))
      as [len|e|]; cbn [bind] in *; try reflexivity.
    destruct (len =? 0)%N; [reflexivity|].
    destruct (is_pointer len).
    + destruct (unpack_B (slice response (position + 1) (position + 2)))
        as [b2|e|]; cbn [bind] in *; try reflexivity.
      cbv zeta in *.
      rewrite (IH response [] _) with (fuel' := fuel'); [reflexivity| |exact Hle'].
      intros E. rewrite E in H. apply H. reflexivity.
    + cbv zeta in *.
      destruct (unpack_s _ _) as [raw|e|]; cbn [bind] in *; try reflexivity.
      destruct (bytes_decode raw) as [label|e|]; cbn [bind] in *;
        try reflexivity.
      apply IH; assumption.
Qed.

Lemma networkToString_mono (fuel fuel' : nat) (response : bytes)
      (start : nat) (r : str * nat) :
  networkToString fuel response start = Ret r -> fuel <= fuel' ->
  networkToString fuel' response start = Ret r.
Proof.
  unfold networkToString. intros H Hle.
  rewrite (loop_mono fuel response [] start) by (congruence || assumption).
  exact H.
Qed.

(** ** Reading literal labels *)

Lemma label_wire_length (l : str) : length (label_wire l) = S (length l).
Proof. unfold label_wire. simpl. now rewrite length_map. Qed.

(** The loop reads the labels it finds in the buffer one by one, each
    costing one unit of budget. *)
Lemma loop_labels (ls : list str) :
  Forall good_label ls ->
  forall (pre post : bytes) (toReturn : str) (fuel : nat),
    networkToString_loop (length ls + fuel)
      (pre ++ concat (map label_wire ls) ++ post) toReturn (length pre)
    = networkToString_loop fuel
        (pre ++ concat (map label_wire ls) ++ post) (toReturn ++ dotted ls)
        (length pre + length (concat (map label_wire ls))).
Proof.
  induction 1 as [|l ls Hl Hls IH]; intros pre post toReturn fuel.
  - simpl. now rewrite app_nil_r, Nat.add_0_r.
  - destruct Hl as (Ha & Hne & Hlen).
    set (x := byte_of (N.of_nat (length l))).
    assert (Hx : Byte.to_N x = N.of_nat (length l))
      by (unfold x; apply to_N_byte_of; lia).
    assert (Hn : N.to_nat (Byte.to_N x) = length l)
      by (rewrite Hx; apply Nat2N.id).
    set (buf := pre ++ concat (map label_wire (l :: ls)) ++ post).
    assert (Hbuf1 : buf = (pre ++ [x]) ++ map byte_of l
                            ++ (concat (map label_wire ls) ++ post)).
    { unfold buf, label_wire. cbn [map concat]. fold x.
      rewrite <- !app_assoc. reflexivity. }
    assert (Hbuf2 : buf = (pre ++ label_wire l)
                            ++ concat (map label_wire ls) ++ post).
    { unfold buf. cbn [map concat]. rewrite <- !app_assoc. reflexivity. }
    assert (Hslice : slice buf (length pre + 1)
                           (length pre + 1 + N.to_nat (Byte.to_N x))
                     = map byte_of l).
    { rewrite Hbuf1, Hn.
      replace (length pre + 1) with (length (pre ++ [x]))
        by (rewrite length_app; reflexivity).
      apply slice_app_at. now rewrite length_map. }
    cbn [length Nat.add].
    rewrite (loop_label (length ls + fuel) buf toReturn (length pre) x l).
    + rewrite Hn, Hbuf2.
      replace (length pre + 1 + length l) with (length (pre ++ label_wire l))
        by (rewrite length_app, label_wire_length; lia).
      rewrite IH. f_equal.
      * unfold dotted. cbn [map concat]. now rewrite <- !app_assoc.
      * cbn [map concat]. rewrite !length_app, label_wire_length. lia.
    + rewrite Hbuf1, <- app_assoc. rewrite nth_error_app2 by lia.
      now rewrite Nat.sub_diag.
    + rewrite Hx. destruct l; [congruence|]. simpl. lia.
    + rewrite is_pointer_spec by (rewrite Hx; lia).
      apply N.leb_gt. rewrite Hx. lia.
    + rewrite Hslice, length_map. now rewrite Hn.
    + rewrite Hslice. now apply decode_ascii.
Qed.

(** X1. On ASCII names whose labels are not empty and shorter than 192
    characters, decoding what [stringToNetwork] wrote gives the name
    back and ends at the end of the encoding. *)
Lemma roundtrip_ascii (name : str) :
  ascii_str name ->
  Forall (fun l => l <> [] /\ length l < 192) (split_dot name) ->
  exists wire,
    stringToNetwork name = Ret wire /\
    forall fuel, length (split_dot name) < fuel ->
      networkToString fuel wire 0 = Ret (name, length wire).
Proof.
  intros Ha Hl.
  assert (Hgood : Forall good_label (split_dot name)).
  { pose proof (split_dot_Forall _ name Ha) as Hs.
    rewrite Forall_forall in *. intros l Hin. unfold good_label.
    split; [exact (Hs l Hin)|exact (Hl l Hin)]. }
  eexists. split.
  - apply (stringToNetwork_labels name Ha).
    rewrite Forall_forall in *. intros l Hin.
    destruct (Hl l Hin). lia.
  - intros fuel Hfuel. unfold networkToString.
    replace fuel with (length (split_dot name)
                       + S (fuel - length (split_dot name) - 1)) by lia.
    pose proof (loop_labels (split_dot name) Hgood [] [x00] []) as W.
    cbn [app length] in W. rewrite W.
    rewrite loop_end.
    + rewrite dotted_split_dot, removelast_last.
      rewrite length_app. reflexivity.
    + rewrite nth_error_app2 by lia. now rewrite Nat.sub_diag.
Qed.

(** C2, the failing input. The name U+00E9 has one label of two bytes in
    UTF-8; [stringToNetwork] takes the length of the label in characters
    and keeps only the first byte, and [networkToString] cannot decode
    what was written. *)
Theorem roundtrip_breaks_beyond_ascii :
  Utf8.encode Vectors.e_acute = Some [xc3; xa9] /\
  stringToNetwork Vectors.e_acute = Ret [x01; xc3; x00] /\
  forall fuel,
    networkToString (S fuel) [x01; xc3; x00] 0 = Raise UnicodeDecodeError.
Proof.
  split; [reflexivity|]. split; [reflexivity|].
  intros fuel. unfold networkToString.
  rewrite (loop_mono 1) by (try lia; vm_compute; discriminate).
  reflexivity.
Qed.

(** ** Pointers *)

(** X2. A pointer after literal labels: the labels, then the name found
    at the low six bits of the first byte plus the second byte; reading
    resumes two bytes after the pointer. *)
Lemma pointer_after_labels (ls : list str) (pre post : bytes) (x y : byte)
      (fuel : nat) (r : str * nat) :
  Forall good_label ls -> is_pointer (Byte.to_N x) = true ->
  networkToString fuel
    (pre ++ concat (map label_wire ls) ++ x :: y :: post)
    (N.to_nat (Byte.to_N x mod 64 + Byte.to_N y)) = Ret r ->
  networkToString (length ls + S fuel)
    (pre ++ concat (map label_wire ls) ++ x :: y :: post) (length pre)
  = Ret (dotted ls ++ fst r,
         length pre + length (concat (map label_wire ls)) + 2).
Proof.
  intros Hls Hp Hr. unfold networkToString in *.
  rewrite loop_labels by assumption.
  rewrite (loop_pointer fuel _ _ _ x y).
  - rewrite pointer_offset_spec by apply to_N_lt.
    rewrite Hr. reflexivity.
  - rewrite app_assoc, nth_error_app2 by (rewrite length_app; lia).
    rewrite length_app, Nat.sub_diag. reflexivity.
  - exact Hp.
  - rewrite app_assoc, nth_error_app2 by (rewrite length_app; lia).
    rewrite length_app.
    replace (length pre + length (concat (map label_wire ls)) + 1
             - (length pre + length (concat (map label_wire ls))))
      with 1 by lia.
    reflexivity.
Qed.

(** C1, the failing input. The name "a" sits at offset 256 and the two
    bytes c1 00 at offset 259 point to it; the program adds the low six
    bits of the first byte to the second byte without shifting them,
    reads at offset 1 and returns the empty name. *)
Theorem far_pointer_misread (fuel : nat) :
  networkToString (S (S fuel)) Vectors.far_pointer 256 = Ret (py "a", 259)
  /\ pointer_offset 0xc1 0 = 1%N
  /\ networkToString (S (S fuel)) Vectors.far_pointer 259 = Ret ([], 261).
Proof.
  unfold networkToString.
  rewrite !(loop_mono 2) by (try lia; vm_compute; discriminate).
  repeat split; vm_compute; reflexivity.
Qed.

(** ** Outcomes that are not [Diverge] *)

Lemma bind_not_diverge {A B} (m : result A) (k : A -> result B) :
  m <> Diverge -> (forall a, m = Ret a -> k a <> Diverge) ->
  bind m k <> Diverge.
Proof.
  intros Hm Hk. destruct m as [a|e|]; cbn [bind].
  - now apply Hk.
  - discriminate.
  - congruence.
Qed.

(** ** One hop of [find] *)

Lemma randint_id (d : N) : (randint 1 65535 d < 65536)%N.
Proof.
  unfold randint. pose proof (N.mod_lt d (65535 - 1 + 1)). lia.
Qed.

Lemma constructQuery_the_query (x : exchange) (hostname : str) (mx : bool)
      (qname : bytes) :
  stringToNetwork hostname = Ret qname ->
  constructQuery (randint 1 65535 (draw x)) hostname mx
  = Ret (the_query x hostname mx).
Proof.
  intros Hq. unfold the_query, constructQuery, pack_6H, pack_HH.
  rewrite (pack_H_ok _ (randint_id (draw x))).
  rewrite !(pack_H_ok 0), !(pack_H_ok 1) by reflexivity.
  rewrite Hq. destruct mx; reflexivity.
Qed.

(** [find] on an exchange that brings a datagram back: the query goes
    out, and the body decides on what [recv] kept of the datagram. *)
Lemma find_reply (fuel : nat) (x : exchange) (env : list exchange)
      (server hostname : str) (mx : bool) (root : str) (count : nat)
      (datagram qname : bytes) :
  reply x = Reply datagram -> stringToNetwork hostname = Ret qname ->
  find fuel (x :: env) server hostname mx root count =
  match find_body fuel (Some (recv 4096 datagram)) hostname mx root count
  with
  | Ret (Done val) => (Ret val, [Sent server (the_query x hostname mx)])
  | Ret (Call server' hostname' mx' root' count') =>
      (fst (find fuel env server' hostname' mx' root' count'),
       Sent server (the_query x hostname mx)
            :: snd (find fuel env server' hostname' mx' root' count'))
  | Raise e => (Raise e, [Sent server (the_query x hostname mx)])
  | Diverge => (Diverge, [Sent server (the_query x hostname mx)])
  end.
Proof.
  intros Hr Hq. cbn [find]. unfold sendToServer.
  rewrite (constructQuery_the_query x hostname mx qname Hq), Hr.
  cbn [bind].
  destruct (find_body fuel (Some (recv 4096 datagram)) hostname mx root count)
    as [[val|s h m r c]|e|]; try reflexivity.
  destruct (find fuel env s h m r c). reflexivity.
Qed.

Lemma networkToString_in_bounds (fuel : nat) (response : bytes)
      (start : nat) (r : str * nat) :
  networkToString fuel response start = Ret r -> start < length response.
Proof.
  unfold networkToString. destruct fuel as [|fuel]; [discriminate|].
  rewrite loop_S, unpack_B_at.
  destruct (nth_error response start) eqn:E; [|discriminate].
  intros _. apply nth_error_Some. congruence.
Qed.

Lemma findType_length (fuel : nat) (response : bytes) (type : N) :
  findType fuel response = Ret type -> 12 <= length response.
Proof.
  unfold findType. intros H.
  destruct (networkToString fuel response 12) as [r| |] eqn:E;
    try discriminate.
  apply networkToString_in_bounds in E. lia.
Qed.

Lemma digit_table :
  all_from (fun d => Bool.eqb (str_eqb [hex_digit d] (py "3")) (d =? 3)%N
                     && Bool.eqb (str_eqb [hex_digit d] (py "4")) (d =? 4)%N)
           0 16 = true.
Proof. vm_compute. reflexivity. Qed.

Lemma digit_is (d : N) :
  (d < 16)%N ->
  str_eqb [hex_digit d] (py "3") = (d =? 3)%N
  /\ str_eqb [hex_digit d] (py "4") = (d =? 4)%N.
Proof.
  intros H.
  pose proof (all_from_spec _ _ _ digit_table d) as T. cbv beta in T.
  assert (H0 : (0 <= d)%N) by lia. specialize (T H0 H).
  apply andb_true_iff in T. destruct T as [T3 T4].
  split; apply eqb_prop; assumption.
Qed.

(** The decision of [find] in terms of the flags of the header: the
    comparison [soa == '3'] tests their last hexadecimal digit, the
    comparison [auth == '4'] their second one. *)
Lemma find_body_fields (fuel : nat) (response : bytes) (hostname : str)
      (mx : bool) (root : str) (count : nat) (flags type : N) :
  Spec.flags response = Ret flags -> (0x1000 <= flags)%N ->
  findType fuel response = Ret type ->
  exists ns_count,
    Spec.authority_count response = Ret ns_count /\
    find_body fuel (Some response) hostname mx root count =
    if (flags mod 16 =? 3)%N || (type =? 6)%N then
      Ret (Done (Some (name_error_message count)))
    else if (type =? 5)%N then
      cname <- findCname fuel response ;;
      Ret (Call root cname mx root (count + 1))
    else if ((flags / 256) mod 16 =? 4)%N then
      if mx then
        mailexchange <- findMail fuel response ;;
        Ret (Call root mailexchange false root (count + 1))
      else
        ip <- findAnswer fuel response 1 ;;
        Ret (Done (Some ip))
    else
      nsList <- createNS fuel response ns_count ;;
      match nsList with
      | nsname :: _ => Ret (Call nsname hostname mx root (count + 1))
      | [] => Ret (Done None)
      end.
Proof.
  intros Hf Hge Ht.
  pose proof (findType_length fuel response type Ht) as Hlen.
  destruct (parseResponse_fields response flags Hlen Hf Hge)
    as (ns_count & Hns & Hp).
  exists ns_count. split; [exact Hns|].
  unfold find_body. rewrite Hp, Ht. cbn [bind].
  destruct (digit_is (flags mod 16)) as [D3 _];
    [apply N.mod_lt; lia|].
  destruct (digit_is ((flags / 256) mod 16)) as [_ D4];
    [apply N.mod_lt; lia|].
  rewrite D3, D4.
  destruct ((flags mod 16 =? 3)%N || (type =? 6)%N); [|reflexivity].
  destruct count as [|[|count]]; reflexivity.
Qed.

(** C3, as the code has it. When the last hexadecimal digit of the
    flags is 3 (response code 3), or when the first record after the
    question has 6 (SOA) in the low byte of its type, [find] returns
    the message that goes with its hop count and sends nothing more. *)
Theorem find_name_error (fuel : nat) (x : exchange) (env : list exchange)
        (server hostname : str) (mx : bool) (root : str) (count : nat)
        (datagram qname : bytes) (flags type : N) :
  reply x = Reply datagram -> stringToNetwork hostname = Ret qname ->
  Spec.flags (recv 4096 datagram) = Ret flags -> (0x1000 <= flags)%N ->
  findType fuel (recv 4096 datagram) = Ret type ->
  (flags mod 16 = 3 \/ type = 6)%N ->
  find fuel (x :: env) server hostname mx root count
  = (Ret (Some (name_error_message count)),
     [Sent server (the_query x hostname mx)])
  /\ name_error_message 0 = py "Invalid TLD"
  /\ name_error_message 1 = py "Invalid domain"
  /\ (1 < count ->
      name_error_message count = py "Subdomain could not be resolved, SOA").
Proof.
  intros Hr Hq Hf Hge Ht Hcase. split.
  - rewrite (find_reply fuel x env server hostname mx root count
                        datagram qname Hr Hq).
    destruct (find_body_fields fuel (recv 4096 datagram) hostname mx root
                               count flags type Hf Hge Ht)
      as (ns_count & _ & ->).
    assert (E : (flags mod 16 =? 3)%N || (type =? 6)%N = true).
    { apply orb_true_iff. destruct Hcase as [H|H]; [left|right];
        now apply N.eqb_eq. }
    now rewrite E.
  - split; [reflexivity|]. split; [reflexivity|].
    intros Hc. destruct count as [|[|count]]; [lia|lia|reflexivity].
Qed.

Lemma find_name_error_witness :
  find 50 [Wire.answered Vectors.no_data] Vectors.root_server
       (py "www.example") false Vectors.root_server 0
  = (Ret (Some (py "Invalid TLD")),
     [Sent Vectors.root_server
           (the_query (Wire.answered Vectors.no_data) (py "www.example")
                      false)]).
Proof.
  refine (proj1 (find_name_error 50 (Wire.answered Vectors.no_data) []
                   Vectors.root_server (py "www.example") false
                   Vectors.root_server 0 Vectors.no_data
                   (Wire.name "www.example") 0x8400 6 _ _ _ _ _ _)).
  - reflexivity.
  - reflexivity.
  - reflexivity.
  - vm_compute. discriminate.
  - vm_compute. reflexivity.
  - right. reflexivity.
Defined.

(** C3, the claim as stated fails: the response holds a CNAME in its
    answers and the SOA of the zone in its authority section; at depth 0
    [find] follows the alias with a second query and returns what that
    one brings. *)
Lemma find_follows_cname_despite_soa :
  Spec.soa_in_authority 50 Vectors.cname_with_soa = Ret true
  /\ Spec.name_error 50 Vectors.cname_with_soa = Ret true
  /\ fst (find 50 [Wire.answered Vectors.cname_with_soa;
                   Wire.answered Vectors.a_answer]
               Vectors.root_server (py "www.example") false
               Vectors.root_server 0)
     = Ret (Some (py "93.184.216.34"))
  /\ map (fun e => match e with Sent server _ => server end)
         (snd (find 50 [Wire.answered Vectors.cname_with_soa;
                        Wire.answered Vectors.a_answer]
                    Vectors.root_server (py "www.example") false
                    Vectors.root_server 0))
     = [Vectors.root_server; Vectors.root_server].
Proof. repeat split; vm_compute; reflexivity. Qed.




(** ** Referrals *)










(** * Further properties of the codec *)

Lemma roundtrip_ascii_witness :
  exists wire,
    stringToNetwork (py "www.sandiego.edu") = Ret wire /\
    forall fuel, length (split_dot (py "www.sandiego.edu")) < fuel ->
      networkToString fuel wire 0
      = Ret (py "www.sandiego.edu", length wire).
Proof.
  refine (roundtrip_ascii (py "www.sandiego.edu") _ _).
  - repeat constructor.
  - repeat constructor; discriminate.
Defined.

Lemma pointer_after_labels_witness :
  networkToString (length [py "ns1"] + S 2) Vectors.backward_pointer
                  (length (Wire.name "example" ++ Wire.name "www"))
  = Ret (dotted [py "ns1"] ++ fst (py "example", 9),
         length (Wire.name "example" ++ Wire.name "www")
         + length (concat (map label_wire [py "ns1"])) + 2).
Proof.
  refine (pointer_after_labels [py "ns1"]
            (Wire.name "example" ++ Wire.name "www") [] xc0 x00 2
            (py "example", 9) _ _ _).
  - repeat constructor; try discriminate.
  - reflexivity.
  - reflexivity.
Defined.

Lemma loop_next_offset (fuel : nat) :
  forall (response : bytes) (toReturn : str) (position : nat)
         (name : str) (next : nat),
    networkToString_loop fuel response toReturn position = Ret (name, next) ->
    position < next <= length response.
Proof.
  induction fuel as [|fuel IH];
    intros response toReturn position name next H; [discriminate|].
  rewrite loop_S, unpack_B_at in H.
  destruct (nth_error response position) as [x|] eqn:Ex; [|discriminate].
  assert (Hp : position < length response)
    by (apply nth_error_Some; congruence).
  cbn [bind] in H.
  destruct (Byte.to_N x =? 0)%N.
  { injection H as _ <-. lia. }
  destruct (is_pointer (Byte.to_N x)).
  - replace (position + 2) with (position + 1 + 1) in H at 1 by lia.
    rewrite unpack_B_at in H.
    destruct (nth_error response (position + 1)) as [y|] eqn:Ey;
      [|discriminate].
    assert (Hq : position + 1 < length response)
      by (apply nth_error_Some; congruence).
    cbn [bind] in H. cbv zeta in H.
    destruct (networkToString_loop fuel response [] _) as [r| |];
      cbn [bind] in H; try discriminate.
    injection H as _ <-. lia.
  - cbv zeta in H.
    destruct (unpack_s _ _) as [raw| |]; cbn [bind] in H; try discriminate.
    destruct (bytes_decode raw) as [label| |]; cbn [bind] in H;
      try discriminate.
    apply IH in H. lia.
Qed.

(** X3. Whenever [networkToString] returns, the offset it reports lies
    after the start and not beyond the end of the message. *)
Theorem networkToString_next_offset (fuel : nat) (response : bytes)
        (start : nat) (name : str) (next : nat) :
  networkToString fuel response start = Ret (name, next) ->
  start < next <= length response.
Proof. apply loop_next_offset. Qed.

Lemma networkToString_next_offset_witness :
  14 < 20 <= length Vectors.backward_pointer.
Proof.
  refine (networkToString_next_offset 10 Vectors.backward_pointer 14
            (py "ns1.example") 20 _).
  vm_compute. reflexivity.
Defined.

Lemma wire_length (ls : list str) :
  length (concat (map label_wire ls)) = length (dotted ls).
Proof.
  induction ls as [|l ls IH]; [reflexivity|].
  unfold dotted in *. cbn [map concat].
  rewrite !length_app, IH, label_wire_length. simpl. lia.
Qed.

(** X4. On a name of ASCII characters whose labels have at most 255
    characters, the encoding is two bytes longer than the name. *)
Theorem stringToNetwork_length (name : str) :
  ascii_str name ->
  Forall (fun l => length l <= 255) (split_dot name) ->
  exists wire,
    stringToNetwork name = Ret wire /\ length wire = length name + 2.
Proof.
  intros Ha Hl. eexists. split.
  - now apply stringToNetwork_labels.
  - rewrite length_app, wire_length, dotted_split_dot, length_app.
    simpl. lia.
Qed.

Lemma stringToNetwork_length_witness :
  exists wire,
    stringToNetwork (py "www.sandiego.edu") = Ret wire
    /\ length wire = length (py "www.sandiego.edu") + 2.
Proof.
  refine (stringToNetwork_length (py "www.sandiego.edu") _ _).
  - repeat constructor.
  - repeat constructor.
Defined.

Lemma split_dot_app (a b : str) :
  split_dot (a ++ dot :: b) = split_dot a ++ split_dot b.
Proof.
  induction a as [|c r IH]; [reflexivity|].
  cbn [app split_dot]. rewrite IH.
  destruct (c =? dot)%N; [reflexivity|].
  destruct (split_dot_cons r) as (h & t & ->). reflexivity.
Qed.

Lemma pack_labels_acc (ls : list str) :
  forall toReturn,
    pack_labels ls toReturn
    = (x <- pack_labels ls [] ;; Ret (toReturn ++ x)).
Proof.
  induction ls as [|l ls IH]; intros toReturn.
  - cbn. now rewrite app_nil_r.
  - cbn [pack_labels].
    destruct (pack_label l) as [x| |]; cbn [bind]; try reflexivity.
    rewrite (IH (toReturn ++ x)), (IH ([] ++ x)).
    destruct (pack_labels ls []) as [y| |]; cbn [bind]; try reflexivity.
    now rewrite <- app_assoc.
Qed.

Lemma pack_labels_app (l1 l2 : list str) :
  forall toReturn,
    pack_labels (l1 ++ l2) toReturn
    = (x <- pack_labels l1 toReturn ;; pack_labels l2 x).
Proof.
  induction l1 as [|l l1 IH]; intros toReturn; [reflexivity|].
  cbn [app pack_labels].
  destruct (pack_label l) as [x| |]; cbn [bind]; try reflexivity.
  apply IH.
Qed.

(** X5. The encoding follows the dots: when two names encode, the
    encoding of the first, a dot and the second is the encoding of the
    first without its final zero byte followed by the encoding of the
    second. *)
Theorem stringToNetwork_dot (a b : str) (wa wb : bytes) :
  stringToNetwork a = Ret wa -> stringToNetwork b = Ret wb ->
  stringToNetwork (a ++ dot :: b) = Ret (removelast wa ++ wb).
Proof.
  unfold stringToNetwork. intros Ha Hb.
  rewrite split_dot_app, pack_labels_app.
  destruct (pack_labels (split_dot a) []) as [ta| |];
    cbn [bind] in *; try discriminate.
  change (pack_B 0) with (@Ret bytes [x00]) in *. cbn [bind] in *.
  injection Ha as <-. rewrite removelast_last.
  rewrite pack_labels_acc.
  destruct (pack_labels (split_dot b) []) as [tb| |];
    cbn [bind] in *; try discriminate.
  injection Hb as <-. now rewrite app_assoc.
Qed.

Lemma stringToNetwork_dot_witness :
  stringToNetwork (py "www" ++ dot :: py "edu")
  = Ret (removelast [x03; x77; x77; x77; x00] ++ [x03; x65; x64; x75; x00]).
Proof.
  refine (stringToNetwork_dot (py "www") (py "edu") _ _ _ _); reflexivity.
Defined.

(** A literal name inside a message is read back with its next
    offset. *)
Lemma name_at (ls : list str) (pre post : bytes) (fuel : nat) :
  Forall good_label ls ->
  networkToString (length ls + S fuel)
    (pre ++ concat (map label_wire ls) ++ x00 :: post) (length pre)
  = Ret (removelast (dotted ls),
         length pre + length (concat (map label_wire ls)) + 1).
Proof.
  intros Hls. unfold networkToString.
  rewrite loop_labels by assumption. rewrite loop_end; [reflexivity|].
  rewrite app_assoc, nth_error_app2 by (rewrite length_app; lia).
  rewrite length_app, Nat.sub_diag. reflexivity.
Qed.

Lemma good_labels_of (name : str) :
  ascii_str name ->
  Forall (fun l => l <> [] /\ length l < 192) (split_dot name) ->
  Forall good_label (split_dot name).
Proof.
  intros Ha Hl. pose proof (split_dot_Forall _ name Ha) as Hs.
  rewrite Forall_forall in *. intros l Hin. unfold good_label.
  split; [exact (Hs l Hin)|exact (Hl l Hin)].
Qed.

(** X6. A final dot costs one more zero byte, which the decoder does not
    read: for an ASCII name with labels of 1 to 191 characters, the
    encoding of the name followed by a dot is the encoding of the name
    followed by a zero byte, and decoding it returns the name without
    the dot and stops one byte before the end. *)
Theorem trailing_dot (name : str) :
  ascii_str name ->
  Forall (fun l => l <> [] /\ length l < 192) (split_dot name) ->
  exists wire,
    stringToNetwork name = Ret wire /\
    stringToNetwork (name ++ [dot]) = Ret (wire ++ [x00]) /\
    forall fuel, length (split_dot name) < fuel ->
      networkToString fuel (wire ++ [x00]) 0 = Ret (name, length wire).
Proof.
  intros Ha Hl. pose proof (good_labels_of name Ha Hl) as Hgood.
  assert (Hlen : Forall (fun l => length l <= 255) (split_dot name)).
  { rewrite Forall_forall in *. intros l Hin. destruct (Hl l Hin). lia. }
  pose proof (stringToNetwork_labels name Ha Hlen) as Hn.
  eexists. split; [exact Hn|]. split.
  - unfold stringToNetwork in *. rewrite split_dot_app, pack_labels_app.
    destruct (pack_labels (split_dot name) []) as [t| |];
      cbn [bind] in *; try discriminate.
    injection Hn as Hn. apply app_inj_tail in Hn. destruct Hn as [-> _].
    cbn. now rewrite <- !app_assoc.
  - intros fuel Hfuel.
    replace fuel with (length (split_dot name)
                       + S (fuel - length (split_dot name) - 1)) by lia.
    pose proof (name_at (split_dot name) [] [x00]
                        (fuel - length (split_dot name) - 1) Hgood) as W.
    cbn [app length Nat.add] in W. rewrite <- app_assoc. cbn [app].
    rewrite W, dotted_split_dot, removelast_last, length_app.
    reflexivity.
Qed.

Lemma trailing_dot_witness :
  exists wire,
    stringToNetwork (py "www.edu") = Ret wire /\
    stringToNetwork (py "www.edu" ++ [dot]) = Ret (wire ++ [x00]) /\
    forall fuel, length (split_dot (py "www.edu")) < fuel ->
      networkToString fuel (wire ++ [x00]) 0
      = Ret (py "www.edu", length wire).
Proof.
  refine (trailing_dot (py "www.edu") _ _).
  - repeat constructor.
  - repeat constructor; discriminate.
Defined.

(** * Further properties of the header and of the query *)

Lemma str_eqb_eq (a b : str) : str_eqb a b = true <-> a = b.
Proof.
  unfold str_eqb. destruct (list_eq_dec N.eq_dec a b); split;
    congruence.
Qed.

(** X7. On a response of twelve bytes or more whose flags are 0x1000 or
    more, [parseResponse] returns the second and the last hexadecimal
    digit of the flags and the authority count of the header: its
    [auth] is ['4'] exactly when bits 8 to 11 of the flags are 0100, its
    [soa] is ['3'] exactly when the response code is 3. *)
Theorem parseResponse_reads_header (response : bytes) (flags : N) :
  12 <= length response -> Spec.flags response = Ret flags ->
  (0x1000 <= flags)%N ->
  exists auth soa ns_count,
    parseResponse (Some response) = Ret (auth, soa, ns_count) /\
    Spec.authority_count response = Ret ns_count /\
    auth = [hex_digit ((flags / 256) mod 16)] /\
    soa = [hex_digit (flags mod 16)] /\
    (auth = py "4" <-> (flags / 256) mod 16 = 4)%N /\
    (soa = py "3" <-> flags mod 16 = 3)%N.
Proof.
  intros H Hf Hge.
  destruct (parseResponse_fields response flags H Hf Hge) as (n & Hn & Hp).
  exists [hex_digit ((flags / 256) mod 16)], [hex_digit (flags mod 16)], n.
  repeat split; try assumption.
  - intros E. apply str_eqb_eq in E.
    destruct (digit_is ((flags / 256) mod 16)) as [_ D];
      [apply N.mod_lt; lia|].
    rewrite D in E. now apply N.eqb_eq.
  - intros E.
    destruct (digit_is ((flags / 256) mod 16)) as [_ D];
      [apply N.mod_lt; lia|].
    apply str_eqb_eq. rewrite D. now apply N.eqb_eq.
  - intros E. apply str_eqb_eq in E.
    destruct (digit_is (flags mod 16)) as [D _]; [apply N.mod_lt; lia|].
    rewrite D in E. now apply N.eqb_eq.
  - intros E.
    destruct (digit_is (flags mod 16)) as [D _]; [apply N.mod_lt; lia|].
    apply str_eqb_eq. rewrite D. now apply N.eqb_eq.
Qed.

Lemma parseResponse_reads_header_witness :
  exists auth soa ns_count,
    parseResponse (Some Vectors.referral) = Ret (auth, soa, ns_count) /\
    Spec.authority_count Vectors.referral = Ret ns_count /\
    auth = [hex_digit ((0x8000 / 256) mod 16)] /\
    soa = [hex_digit (0x8000 mod 16)] /\
    (auth = py "4" <-> (0x8000 / 256) mod 16 = 4)%N /\
    (soa = py "3" <-> 0x8000 mod 16 = 3)%N.
Proof.
  refine (parseResponse_reads_header Vectors.referral 0x8000 _ _ _).
  - vm_compute. lia.
  - reflexivity.
  - vm_compute. discriminate.
Defined.

Lemma constructQuery_ok (ID : N) (hostname : str) (mx : bool)
      (qname : bytes) :
  (ID < 65536)%N -> stringToNetwork hostname = Ret qname ->
  constructQuery ID hostname mx
  = Ret (Wire.header ID 0 1 0 0 0 ++ qname
           ++ Wire.w16 (if mx then 15 else 1) ++ Wire.w16 1).
Proof.
  intros H Hq. unfold constructQuery, pack_6H, pack_HH.
  rewrite (pack_H_ok ID H).
  rewrite !(pack_H_ok 0), !(pack_H_ok 1) by reflexivity.
  rewrite Hq. destruct mx; reflexivity.
Qed.

Lemma constructQuery_inv (ID : N) (hostname : str) (mx : bool)
      (query : bytes) :
  constructQuery ID hostname mx = Ret query ->
  exists qname,
    (ID < 65536)%N /\ stringToNetwork hostname = Ret qname /\
    query = Wire.header ID 0 1 0 0 0 ++ qname
              ++ Wire.w16 (if mx then 15 else 1) ++ Wire.w16 1.
Proof.
  intros H.
  destruct (N.lt_ge_cases ID 65536) as [Hlt|Hge].
  - destruct (stringToNetwork hostname) as [qname|e|] eqn:Hq.
    + exists qname. rewrite (constructQuery_ok ID hostname mx qname Hlt Hq)
        in H. injection H as <-. auto.
    + exfalso. revert H. unfold constructQuery, pack_6H, pack_HH.
      rewrite (pack_H_ok ID Hlt).
      rewrite !(pack_H_ok 0), !(pack_H_ok 1) by reflexivity.
      rewrite Hq. discriminate.
    + exfalso. revert H. unfold constructQuery, pack_6H, pack_HH.
      rewrite (pack_H_ok ID Hlt).
      rewrite !(pack_H_ok 0), !(pack_H_ok 1) by reflexivity.
      rewrite Hq. discriminate.
  - exfalso. revert H. unfold constructQuery, pack_6H, pack_HH, pack_H.
    apply N.ltb_ge in Hge. rewrite Hge. discriminate.
Qed.

(** X8. A query cannot be parsed as a response: on whatever
    [constructQuery] returns, [parseResponse] raises [IndexError],
    because the flags of a query are zero. *)
Theorem parseResponse_rejects_queries (ID : N) (hostname : str) (mx : bool)
        (query : bytes) :
  constructQuery ID hostname mx = Ret query ->
  parseResponse (Some query) = Raise IndexError.
Proof.
  intros H.
  destruct (constructQuery_inv ID hostname mx query H)
    as (qname & Hlt & Hq & ->).
  apply (parseResponse_low_flags _ 0).
  - unfold Wire.header. rewrite !length_app. simpl. lia.
  - reflexivity.
  - reflexivity.
Qed.

Lemma parseResponse_rejects_queries_witness :
  parseResponse
    (Some (the_query (Wire.answered []) (py "www.example") false))
  = Raise IndexError.
Proof.
  refine (parseResponse_rejects_queries 1 (py "www.example") false _ _).
  reflexivity.
Defined.

(** X9. The question of a query reads back: for a 16-bit ID and an
    ASCII name with labels of 1 to 191 characters, the query is 18
    bytes longer than the name, and [networkToString] at offset 12 of
    the query returns the name and the offset of the type field, four
    bytes before the end. *)
Theorem question_roundtrip (ID : N) (hostname : str) (mx : bool) :
  (ID < 65536)%N -> ascii_str hostname ->
  Forall (fun l => l <> [] /\ length l < 192) (split_dot hostname) ->
  exists query,
    constructQuery ID hostname mx = Ret query /\
    length query = length hostname + 18 /\
    forall fuel, length (split_dot hostname) < fuel ->
      networkToString fuel query 12 = Ret (hostname, length query - 4).
Proof.
  intros Hid Ha Hl. pose proof (good_labels_of hostname Ha Hl) as Hgood.
  assert (Hlen : Forall (fun l => length l <= 255) (split_dot hostname)).
  { rewrite Forall_forall in *. intros l Hin. destruct (Hl l Hin). lia. }
  pose proof (stringToNetwork_labels hostname Ha Hlen) as Hn.
  eexists. split; [exact (constructQuery_ok ID hostname mx _ Hid Hn)|].
  assert (Hw : length (concat (map label_wire (split_dot hostname)))
               = length hostname + 1)
    by (rewrite wire_length, dotted_split_dot, length_app; simpl; lia).
  split.
  - rewrite !length_app, Hw. simpl. lia.
  - intros fuel Hfuel.
    replace fuel with (length (split_dot hostname)
                       + S (fuel - length (split_dot hostname) - 1)) by lia.
    pose proof (name_at (split_dot hostname) (Wire.header ID 0 1 0 0 0)
                  (Wire.w16 (if mx then 15 else 1) ++ Wire.w16 1)
                  (fuel - length (split_dot hostname) - 1) Hgood) as W.
    change (length (Wire.header ID 0 1 0 0 0)) with 12 in W.
    rewrite <- app_assoc. cbn [app] in *. rewrite W.
    rewrite dotted_split_dot, removelast_last.
    f_equal. f_equal. rewrite !length_app, Hw. simpl. lia.
Qed.

Lemma question_roundtrip_witness :
  exists query,
    constructQuery 0x1234 (py "www.example") true = Ret query /\
    length query = length (py "www.example") + 18 /\
    forall fuel, length (split_dot (py "www.example")) < fuel ->
      networkToString fuel query 12
      = Ret (py "www.example", length query - 4).
Proof.
  refine (question_roundtrip 0x1234 (py "www.example") true _ _ _).
  - reflexivity.
  - repeat constructor.
  - repeat constructor; discriminate.
Defined.

(** * Further properties of [find] and of its accessors *)

(** X10. A timeout ends the walk with an exception: [sendToServer]
    hands [None] back and [parseResponse] cannot subscript it, so [find]
    raises [TypeError] once the query is out. *)
Theorem find_timeout (fuel : nat) (x : exchange) (env : list exchange)
        (server hostname : str) (mx : bool) (root : str) (count : nat)
        (qname : bytes) :
  reply x = Timeout -> stringToNetwork hostname = Ret qname ->
  find fuel (x :: env) server hostname mx root count
  = (Raise TypeError, [Sent server (the_query x hostname mx)]).
Proof.
  intros Hr Hq. cbn [find]. unfold sendToServer.
  rewrite (constructQuery_the_query x hostname mx qname Hq), Hr.
  reflexivity.
Qed.

Lemma find_timeout_witness :
  find 50 [{| draw := 5; reply := Timeout |}] Vectors.root_server
       (py "www.example") false Vectors.root_server 0
  = (Raise TypeError,
     [Sent Vectors.root_server
           (the_query {| draw := 5; reply := Timeout |} (py "www.example")
                      false)]).
Proof.
  refine (find_timeout 50 {| draw := 5; reply := Timeout |} []
            Vectors.root_server (py "www.example") false
            Vectors.root_server 0 (Wire.name "www.example") _ _);
    reflexivity.
Defined.

(** X11. A response shorter than the twelve bytes of a header, the empty
    datagram included, makes [find] raise [struct.error] after its
    query. *)
Theorem find_short_response (fuel : nat) (x : exchange)
        (env : list exchange) (server hostname : str) (mx : bool)
        (root : str) (count : nat) (datagram qname : bytes) :
  reply x = Reply datagram -> stringToNetwork hostname = Ret qname ->
  length datagram < 12 ->
  find fuel (x :: env) server hostname mx root count
  = (Raise StructError, [Sent server (the_query x hostname mx)]).
Proof.
  intros Hr Hq Hlen.
  rewrite (find_reply fuel x env server hostname mx root count
                      datagram qname Hr Hq).
  unfold find_body. rewrite parseResponse_short; [reflexivity|].
  unfold recv. rewrite length_firstn. lia.
Qed.

Lemma find_short_response_witness :
  find 50 [Wire.answered [x00; x01; x80]] Vectors.root_server
       (py "www.example") false Vectors.root_server 0
  = (Raise StructError,
     [Sent Vectors.root_server
           (the_query (Wire.answered [x00; x01; x80]) (py "www.example")
                      false)]).
Proof.
  refine (find_short_response 50 (Wire.answered [x00; x01; x80]) []
            Vectors.root_server (py "www.example") false
            Vectors.root_server 0 [x00; x01; x80]
            (Wire.name "www.example") _ _ _).
  - reflexivity.
  - reflexivity.
  - simpl. lia.
Defined.

(** X12. A name that does not encode stops the walk before anything is
    sent: [find] raises what [stringToNetwork] raises and no query
    leaves, whatever the network would have answered. *)
Theorem find_unencodable_hostname (fuel : nat) (x : exchange)
        (env : list exchange) (server hostname : str) (mx : bool)
        (root : str) (count : nat) (e : exn) :
  stringToNetwork hostname = Raise e ->
  find fuel (x :: env) server hostname mx root count = (Raise e, []).
Proof.
  intros Hq. cbn [find]. unfold sendToServer, constructQuery, pack_6H,
    pack_HH.
  rewrite (pack_H_ok _ (randint_id (draw x))).
  rewrite !(pack_H_ok 0), !(pack_H_ok 1) by reflexivity.
  rewrite Hq. reflexivity.
Qed.

Lemma find_unencodable_hostname_witness :
  find 50 [Wire.answered Vectors.a_answer] Vectors.root_server
       (repeat 97%N 256) false Vectors.root_server 0
  = (Raise StructError, []).
Proof.
  refine (find_unencodable_hostname 50 (Wire.answered Vectors.a_answer) []
            Vectors.root_server (repeat 97%N 256) false
            Vectors.root_server 0 StructError _).
  vm_compute. reflexivity.
Defined.

(** X13. An alias restarts the walk at the root: when the response code
    digit is not 3 and the first record after the question has 5
    (CNAME) in the low byte of its type, [find] goes on with the name
    that [findCname] reads, from the root, one hop deeper and with the
    same MX flag, whether the response is authoritative or not. *)
Theorem find_follows_cname (fuel : nat) (x : exchange)
        (env : list exchange) (server hostname : str) (mx : bool)
        (root : str) (count : nat) (datagram qname : bytes) (flags : N)
        (cname : str) :
  reply x = Reply datagram -> stringToNetwork hostname = Ret qname ->
  Spec.flags (recv 4096 datagram) = Ret flags -> (0x1000 <= flags)%N ->
  (flags mod 16 <> 3)%N ->
  findType fuel (recv 4096 datagram) = Ret 5%N ->
  findCname fuel (recv 4096 datagram) = Ret cname ->
  find fuel (x :: env) server hostname mx root count
  = (fst (find fuel env root cname mx root (count + 1)),
     Sent server (the_query x hostname mx)
          :: snd (find fuel env root cname mx root (count + 1))).
Proof.
  intros Hr Hq Hf Hge H3 Ht Hc.
  rewrite (find_reply fuel x env server hostname mx root count
                      datagram qname Hr Hq).
  destruct (find_body_fields fuel (recv 4096 datagram) hostname mx root
                             count flags 5 Hf Hge Ht)
    as (ns_count & _ & ->).
  apply N.eqb_neq in H3. rewrite H3, Hc. reflexivity.
Qed.

Lemma find_follows_cname_witness :
  find 50 [Wire.answered Vectors.cname_with_soa;
           Wire.answered Vectors.a_answer]
       Vectors.root_server (py "www.example") false Vectors.root_server 0
  = (fst (find 50 [Wire.answered Vectors.a_answer] Vectors.root_server
               (py "host.example") false Vectors.root_server (0 + 1)),
     Sent Vectors.root_server
          (the_query (Wire.answered Vectors.cname_with_soa)
                     (py "www.example") false)
       :: snd (find 50 [Wire.answered Vectors.a_answer] Vectors.root_server
                    (py "host.example") false Vectors.root_server (0 + 1))).
Proof.
  refine (find_follows_cname 50 (Wire.answered Vectors.cname_with_soa)
            [Wire.answered Vectors.a_answer] Vectors.root_server
            (py "www.example") false Vectors.root_server 0
            Vectors.cname_with_soa (Wire.name "www.example") 0x8400
            (py "host.example") _ _ _ _ _ _ _); try reflexivity.
  - vm_compute. discriminate.
  - vm_compute. discriminate.
Defined.

(** X14. The address of an authoritative answer: when the second
    hexadecimal digit of the flags is 4, the response code digit is not
    3, the first record is neither an SOA nor a CNAME and the query was
    not for MX, [find] returns the four bytes that lie ten bytes after
    the name of the first record, written by [inet_ntoa], whatever the
    type and the data length of that record, and sends nothing more. *)
Theorem find_returns_address (fuel : nat) (x : exchange)
        (env : list exchange) (server hostname : str) (root : str)
        (count : nat) (datagram qname : bytes) (flags type : N)
        (question owner : str) (qend start : nat) (a b c d : byte)
        (ip : str) :
  reply x = Reply datagram -> stringToNetwork hostname = Ret qname ->
  Spec.flags (recv 4096 datagram) = Ret flags -> (0x1000 <= flags)%N ->
  (flags mod 16 <> 3)%N -> ((flags / 256) mod 16 = 4)%N ->
  findType fuel (recv 4096 datagram) = Ret type ->
  type <> 6%N -> type <> 5%N ->
  networkToString fuel (recv 4096 datagram) 12 = Ret (question, qend) ->
  networkToString fuel (recv 4096 datagram) (qend + 4)
    = Ret (owner, start) ->
  slice (recv 4096 datagram) (start + 10) (start + 14) = [a; b; c; d] ->
  inet_ntoa [a; b; c; d] = Ret ip ->
  find fuel (x :: env) server hostname false root count
  = (Ret (Some ip), [Sent server (the_query x hostname false)]).
Proof.
  intros Hr Hq Hf Hge H3 H4 Ht H6 H5 Hn1 Hn2 Hs Hip.
  rewrite (find_reply fuel x env server hostname false root count
                      datagram qname Hr Hq).
  destruct (find_body_fields fuel (recv 4096 datagram) hostname false root
                             count flags type Hf Hge Ht)
    as (ns_count & _ & ->).
  apply N.eqb_neq in H3, H6, H5. apply N.eqb_eq in H4.
  rewrite H3, H6, H5, H4. cbn [orb].
  unfold findAnswer. rewrite Hn1. cbn [bind snd]. rewrite Hn2.
  cbn [bind snd]. rewrite Hs, Hip. reflexivity.
Qed.

Lemma find_returns_address_witness :
  find 50 [Wire.answered Vectors.a_answer] Vectors.root_server
       (py "www.example") false Vectors.root_server 0
  = (Ret (Some (py "93.184.216.34")),
     [Sent Vectors.root_server
           (the_query (Wire.answered Vectors.a_answer) (py "www.example")
                      false)]).
Proof.
  refine (find_returns_address 50 (Wire.answered Vectors.a_answer) []
            Vectors.root_server (py "www.example") Vectors.root_server 0
            Vectors.a_answer (Wire.name "www.example") 0x8400 1
            (py "www.example") (py "www.example") 25 31
            x5d xb8 xd8 x22 (py "93.184.216.34")
            _ _ _ _ _ _ _ _ _ _ _ _ _); try reflexivity.
  - vm_compute. discriminate.
  - vm_compute. discriminate.
  - vm_compute. discriminate.
  - vm_compute. discriminate.
Defined.

Lemma createNS_loop_length (fuel : nat) (data : bytes) (turns : nat) :
  forall (start : nat) (nsList result : list str),
    createNS_loop fuel data turns start nsList = Ret result ->
    length result = length nsList + turns.
Proof.
  induction turns as [|turns IH]; intros start nsList result H.
  - injection H as <-. lia.
  - cbn [createNS_loop] in H.
    destruct (networkToString fuel data start) as [r| |];
      cbn [bind] in H; try discriminate.
    destruct (networkToString fuel data (snd r + 10)) as [r1| |];
      cbn [bind] in H; try discriminate.
    apply IH in H. rewrite length_app in H. simpl in H. lia.
Qed.

(** X15. [createNS] returns as many names as the count it is given: it
    reads that many records or fails, it never returns a shorter
    list. *)
Theorem createNS_length (fuel : nat) (data : bytes) (ns_count : N)
        (nsList : list str) :
  createNS fuel data ns_count = Ret nsList ->
  length nsList = N.to_nat ns_count.
Proof.
  unfold createNS. intros H.
  destruct (networkToString fuel data 12) as [r| |];
    cbn [bind] in H; try discriminate.
  apply createNS_loop_length in H. exact H.
Qed.

Lemma createNS_length_witness :
  length [py "ns1.example"; py "ns2.example"] = N.to_nat 2.
Proof.
  refine (createNS_length 50 Vectors.referral 2
            [py "ns1.example"; py "ns2.example"] _).
  vm_compute. reflexivity.
Defined.

(** * [inet_ntoa] *)

Lemma decimal_table :
  all_from (fun n => negb (existsb (N.eqb dot) (str_of_int n))
                     && negb (existsb (N.eqb space) (str_of_int n))
                     && (digits_value (str_of_int n) =? n)%N) 0 256 = true.
Proof. vm_compute. reflexivity. Qed.

Lemma decimal_of_byte (x : byte) :
  existsb (N.eqb dot) (str_of_int (Byte.to_N x)) = false
  /\ existsb (N.eqb space) (str_of_int (Byte.to_N x)) = false
  /\ digits_value (str_of_int (Byte.to_N x)) = Byte.to_N x.
Proof.
  pose proof (all_from_spec _ _ _ decimal_table (Byte.to_N x)) as T.
  cbv beta in T.
  assert (H0 : (0 <= Byte.to_N x)%N) by lia.
  specialize (T H0 (to_N_lt x)).
  apply andb_true_iff in T. destruct T as [T T3].
  apply andb_true_iff in T. destruct T as [T1 T2].
  apply negb_true_iff in T1, T2. apply N.eqb_eq in T3. auto.
Qed.

Lemma split_on_without (sep : N) (s : str) :
  existsb (N.eqb sep) s = false -> split_on sep s = [s].
Proof.
  induction s as [|c r IH]; [reflexivity|].
  cbn [existsb split_on]. intros H. apply orb_false_iff in H.
  destruct H as [Hc Hr]. rewrite N.eqb_sym, Hc, (IH Hr). reflexivity.
Qed.

Lemma split_dot_is_split_on (s : str) : split_dot s = split_on dot s.
Proof.
  induction s as [|c r IH]; [reflexivity|].
  cbn [split_dot split_on]. now rewrite IH.
Qed.

Lemma existsb_app_false {A} (f : A -> bool) (l1 l2 : list A) :
  existsb f l1 = false -> existsb f l2 = false ->
  existsb f (l1 ++ l2) = false.
Proof. intros H1 H2. now rewrite existsb_app, H1, H2. Qed.

Lemma inet_ntoa_no_space (a b c d : byte) (ip : str) :
  inet_ntoa [a; b; c; d] = Ret ip -> existsb (N.eqb space) ip = false.
Proof.
  intros H. injection H as <-.
  destruct (decimal_of_byte a) as (_ & Sa & _).
  destruct (decimal_of_byte b) as (_ & Sb & _).
  destruct (decimal_of_byte c) as (_ & Sc & _).
  destruct (decimal_of_byte d) as (_ & Sd & _).
  repeat (apply existsb_app_false; [assumption|]; cbn [app existsb];
          change (space =? dot)%N with false; cbn [orb]).
  assumption.
Qed.

(** X16. [inet_ntoa] writes four bytes as four decimal numbers between
    dots: splitting its result at the dots and reading the digits gives
    the four bytes back, and the result holds no space. *)
Theorem inet_ntoa_dotted_quad (a b c d : byte) :
  exists ip,
    inet_ntoa [a; b; c; d] = Ret ip /\
    map digits_value (split_dot ip)
    = [Byte.to_N a; Byte.to_N b; Byte.to_N c; Byte.to_N d] /\
    existsb (N.eqb space) ip = false.
Proof.
  destruct (decimal_of_byte a) as (Da & _ & Va).
  destruct (decimal_of_byte b) as (Db & _ & Vb).
  destruct (decimal_of_byte c) as (Dc & _ & Vc).
  destruct (decimal_of_byte d) as (Dd & _ & Vd).
  eexists. split; [reflexivity|]. split.
  - cbn [app]. rewrite !split_dot_app.
    rewrite !split_dot_is_split_on, !split_on_without by assumption.
    cbn [app map]. now rewrite Va, Vb, Vc, Vd.
  - now apply (inet_ntoa_no_space a b c d).
Qed.

(** * [networkToList] *)

Lemma readlines_nonempty (c : N) (r : str) : readlines (c :: r) <> [].
Proof.
  cbn [readlines]. destruct (c =? newline)%N; [discriminate|].
  destruct (readlines r); discriminate.
Qed.

Lemma readlines_length (text : str) :
  length (readlines text)
  = count_occ N.eq_dec text newline
    + (if (last text newline =? newline)%N then 0 else 1).
Proof.
  induction text as [|c r IH]; [reflexivity|].
  cbn [readlines count_occ].
  destruct (N.eq_dec c newline) as [->|Hc].
  - rewrite N.eqb_refl. cbn [length]. rewrite IH.
    destruct r as [|c' r']; [reflexivity|]. reflexivity.
  - apply N.eqb_neq in Hc. rewrite Hc.
    destruct r as [|c' r'].
    + cbn. now rewrite Hc.
    + pose proof (readlines_nonempty c' r') as Hne.
      change (last (c :: c' :: r') newline) with (last (c' :: r') newline).
      rewrite <- IH.
      destruct (readlines (c' :: r')); [congruence|reflexivity].
Qed.

Lemma lstrip_suffix (s : str) :
  exists pre, s = pre ++ lstrip s.
Proof.
  induction s as [|c r [pre IH]]; [exists []; reflexivity|].
  cbn [lstrip]. destruct (is_space c).
  - exists (c :: pre). cbn [app]. now rewrite <- IH.
  - exists []. reflexivity.
Qed.

Lemma lstrip_idem (s : str) : lstrip (lstrip s) = lstrip s.
Proof.
  induction s as [|c r IH]; [reflexivity|].
  cbn [lstrip]. destruct (is_space c) eqn:E; [exact IH|].
  cbn [lstrip]. now rewrite E.
Qed.

Lemma rstrip_prefix (s : str) : exists post, s = rstrip s ++ post.
Proof.
  unfold rstrip. destruct (lstrip_suffix (rev s)) as [pre H].
  exists (rev pre). rewrite <- rev_app_distr, <- H. now rewrite rev_involutive.
Qed.

Lemma strip_stripped (s : str) :
  lstrip (strip s) = strip s /\ rstrip (strip s) = strip s.
Proof.
  unfold strip. split.
  - pose proof (lstrip_idem s) as I.
    remember (lstrip s) as u eqn:Eu. clear Eu.
    destruct (rstrip_prefix u) as [post H]. revert H.
    destruct (rstrip u) as [|c t]; intros H; [reflexivity|].
    cbn [lstrip]. destruct (is_space c) eqn:Hc; [|reflexivity].
    exfalso. rewrite H in I. cbn [app lstrip] in I. rewrite Hc in I.
    destruct (lstrip_suffix (t ++ post)) as [pre Hpre].
    apply (f_equal (@length N)) in I. apply (f_equal (@length N)) in Hpre.
    cbn [length] in I. rewrite !length_app in *. lia.
  - unfold rstrip. rewrite rev_involutive, lstrip_idem. reflexivity.
Qed.

(** X17. [networkToList] turns every line of the file into one entry,
    blank lines included (they give empty entries): the list has one
    entry for each newline of the text, and one more when the text does
    not end with a newline; no entry begins or ends with white space. *)
Theorem networkToList_entries (text : str) :
  exists entries,
    networkToList (Some text) = Ret entries /\
    length entries
    = count_occ N.eq_dec text newline
      + (if (last text newline =? newline)%N then 0 else 1) /\
    Forall (fun e => lstrip e = e /\ rstrip e = e) entries.
Proof.
  eexists. split; [reflexivity|]. split.
  - rewrite length_map. apply readlines_length.
  - apply Forall_map. apply Forall_forall. intros l _.
    apply strip_stripped.
Qed.

(** * [main] *)

Lemma skipn_S_tl {A} (n : nat) (l : list A) :
  skipn (S n) l = skipn n (tl l).
Proof. destruct l; [destruct n; reflexivity|reflexivity]. Qed.

Lemma report_short (mx : bool) (hostname val : str) :
  length (split_on space val) <= 2 ->
  report mx hostname val = resolves_line mx hostname val.
Proof.
  intros H. unfold report, resolves_line.
  apply Nat.leb_le in H. rewrite H. destruct mx; reflexivity.
Qed.

Lemma report_long (mx : bool) (hostname val : str) :
  2 < length (split_on space val) -> report mx hostname val = val.
Proof.
  intros H. unfold report. apply Nat.leb_gt in H. rewrite H.
  destruct mx; reflexivity.
Qed.

(** X20. The name errors of the first two hops are announced as
    resolutions: when the walk returns ['Invalid TLD'] or
    ['Invalid domain'], messages of two words, [main] prints "The name
    <hostname> resolves to: " (or "The mail exchange for ...") followed
    by the message; the message of a deeper hop is printed as it is. *)
Theorem main_name_error_line (fuel : nat) (server : str)
        (rest : list str) (envs : list (list exchange)) (hostname : str)
        (mx : bool) (count : nat) (sent : list event) :
  find fuel (hd [] envs) server hostname mx server 0
  = (Ret (Some (name_error_message count)), sent) ->
  main_loop fuel (server :: rest) envs hostname mx
  = (Ret tt,
     map Packet sent
       ++ [Line (if count <=? 1
                 then resolves_line mx hostname (name_error_message count)
                 else name_error_message count)]).
Proof.
  intros H. cbn [main_loop]. rewrite H.
  destruct count as [|[|count]]; cbn [Nat.leb name_error_message].
  - now rewrite report_short by (vm_compute; lia).
  - now rewrite report_short by (vm_compute; lia).
  - now rewrite report_long by (vm_compute; lia).
Qed.

Lemma main_name_error_line_witness :
  main_loop 50 [Vectors.root_server] [[Wire.answered Vectors.no_data]]
            (py "www.example") false
  = (Ret tt,
     map Packet
         [Sent Vectors.root_server
               (the_query (Wire.answered Vectors.no_data) (py "www.example")
                          false)]
       ++ [Line (py "The name www.example resolves to: Invalid TLD")]).
Proof.
  refine (main_name_error_line 50 Vectors.root_server []
            [[Wire.answered Vectors.no_data]] (py "www.example") false 0
            _ _).
  vm_compute. reflexivity.
Defined.

(** X21. An address is announced on one line: when the walk returns
    what [inet_ntoa] wrote, [main] prints "The name <hostname> resolves
    to: <address>", or "The mail exchange for <hostname> resolves to:
    <address>" when it was asked for MX. *)
Theorem main_address_line (fuel : nat) (server : str) (rest : list str)
        (envs : list (list exchange)) (hostname : str) (mx : bool)
        (a b c d : byte) (ip : str) (sent : list event) :
  inet_ntoa [a; b; c; d] = Ret ip ->
  find fuel (hd [] envs) server hostname mx server 0
  = (Ret (Some ip), sent) ->
  main_loop fuel (server :: rest) envs hostname mx
  = (Ret tt, map Packet sent ++ [Line (resolves_line mx hostname ip)]).
Proof.
  intros Hip H. cbn [main_loop]. rewrite H.
  pose proof (inet_ntoa_no_space a b c d ip Hip) as Hs.
  rewrite report_short; [reflexivity|].
  rewrite (split_on_without space ip Hs). simpl. lia.
Qed.

Lemma main_address_line_witness :
  main_loop 50 [Vectors.root_server; py "b.root"]
            [[Wire.answered Vectors.a_answer]] (py "www.example") false
  = (Ret tt,
     map Packet
         [Sent Vectors.root_server
               (the_query (Wire.answered Vectors.a_answer)
                          (py "www.example") false)]
       ++ [Line (resolves_line false (py "www.example")
                               (py "93.184.216.34"))]).
Proof.
  refine (main_address_line 50 Vectors.root_server [py "b.root"]
            [[Wire.answered Vectors.a_answer]] (py "www.example") false
            x5d xb8 xd8 x22 (py "93.184.216.34") _ _ _).
  - reflexivity.
  - vm_compute. reflexivity.
Defined.

(** Unless sending fails, the query of the first hop leaves whatever
    comes back. *)
Lemma find_first_packet (fuel : nat) (x : exchange) (env : list exchange)
      (server hostname : str) (mx : bool) (root : str) (count : nat)
      (qname : bytes) :
  reply x <> SendError -> stringToNetwork hostname = Ret qname ->
  exists r rest,
    find fuel (x :: env) server hostname mx root count
    = (r, Sent server (the_query x hostname mx) :: rest).
Proof.
  intros Hr Hq. destruct (reply x) as [datagram| |] eqn:E; [| |congruence].
  - rewrite (find_reply fuel x env server hostname mx root count
                        datagram qname E Hq).
    destruct (find_body fuel (Some (recv 4096 datagram)) hostname mx root
                        count) as [[val|s h m r c]|e|];
      eexists; eexists; reflexivity.
  - eexists. eexists. cbn [find]. unfold sendToServer.
    rewrite (constructQuery_the_query x hostname mx qname Hq), E.
    reflexivity.
Qed.

(** X22. A wrong command line does not stop [main]: after the two usage
    lines it goes on with the empty host name and no MX flag, and the
    first server of the list is sent a query whose question name is the
    two zero bytes that [stringToNetwork] writes for the empty
    string. *)
Theorem main_bad_usage (fuel : nat) (argv : list str) (file : option str)
        (envs : list (list exchange)) (server : str) (servers : list str)
        (x : exchange) (env : list exchange) :
  bad_usage argv = true ->
  networkToList file = Ret (server :: servers) ->
  hd [] envs = x :: env -> reply x <> SendError ->
  exists r out,
    main fuel argv file envs
    = (r, usage_lines
            ++ Packet (Sent server
                            (Wire.header (randint 1 65535 (draw x)) 0 1 0 0 0
                               ++ [x00; x00] ++ [x00; x01; x00; x01]))
            :: out).
Proof.
  intros Hbad Hfile Henv Hr.
  unfold main. rewrite Hbad, Hfile. cbn [main_loop]. rewrite Henv.
  destruct (find_first_packet fuel x env server (py "") false server 0
                              [x00; x00] Hr eq_refl) as (r & rest & ->).
  assert (Hq : the_query x (py "") false
               = Wire.header (randint 1 65535 (draw x)) 0 1 0 0 0
                   ++ [x00; x00] ++ [x00; x01; x00; x01]).
  { unfold the_query.
    now rewrite (constructQuery_ok _ (py "") false [x00; x00]
                                   (randint_id (draw x)) eq_refl). }
  rewrite Hq.
  destruct r as [[val|]|e|]; cbn [map app].
  - eexists. eexists. reflexivity.
  - destruct (main_loop fuel servers (tl envs) (py "") false).
    eexists. eexists. reflexivity.
  - destruct (main_loop fuel servers (tl envs) (py "") false).
    eexists. eexists. reflexivity.
  - eexists. eexists. reflexivity.
Qed.

Lemma main_bad_usage_witness :
  exists r out,
    main 50 [py "resolver.py"; py "-x"; py "www.example"]
         (Some (py "198.41.0.4")) [[Wire.answered Vectors.no_data]]
    = (r, usage_lines
            ++ Packet (Sent (py "198.41.0.4")
                            (Wire.header (randint 1 65535 0) 0 1 0 0 0
                               ++ [x00; x00] ++ [x00; x01; x00; x01]))
            :: out).
Proof.
  refine (main_bad_usage 50 [py "resolver.py"; py "-x"; py "www.example"]
            (Some (py "198.41.0.4")) [[Wire.answered Vectors.no_data]]
            (py "198.41.0.4") [] (Wire.answered Vectors.no_data) []
            _ _ _ _).
  - reflexivity.
  - reflexivity.
  - reflexivity.
  - discriminate.
Defined.

(** * Under the recursion limit *)

(** ** [networkToString] always ends *)

Lemma depth_loop_S (deref : nat -> result (str * nat)) (turns : nat)
      (response : bytes) (toReturn : str) (position : nat) :
  Depth.networkToString_loop deref (S turns) response toReturn position =
  (length <- unpack_B (slice response position (position + 1)) ;;
   if (length =? 0)%N then Ret (removelast toReturn, position + 1)
   else if is_pointer length then
     b2 <- unpack_B (slice response (position + 1) (position + 2)) ;;
     let offset := N.to_nat (pointer_offset length b2) in
     r <- deref offset ;;
     Ret (toReturn ++ fst r, position + 2)
   else
     let position1 := position + 1 in
     raw <- unpack_s (N.to_nat length)
                     (slice response position1
                            (position1 + N.to_nat length)) ;;
     label <- bytes_decode raw ;;
     Depth.networkToString_loop deref turns response
                                (toReturn ++ label ++ [dot])
                                (position1 + N.to_nat length)).
Proof. reflexivity. Qed.

Lemma depth_networkToString_S (limit : nat) (response : bytes)
      (start : nat) :
  Depth.networkToString (S limit) response start =
  Depth.networkToString_loop (Depth.networkToString limit response)
                             (S (length response)) response [] start.
Proof. reflexivity. Qed.

(** The turns of the loop cannot be used up: every turn that goes on
    has read at least one byte of the message. *)
Lemma depth_loop_ends (deref : nat -> result (str * nat))
      (response : bytes) :
  (forall offset, deref offset <> Diverge) ->
  forall turns toReturn position,
    length response - position < turns ->
    Depth.networkToString_loop deref turns response toReturn position
    <> Diverge.
Proof.
  intros Hderef. induction turns as [|turns IH];
    intros toReturn position Hturns; [lia|].
  rewrite depth_loop_S, unpack_B_at.
  destruct (nth_error response position) as [x|] eqn:Ex; [|discriminate].
  assert (Hp : position < length response)
    by (apply nth_error_Some; congruence).
  cbn [bind]. destruct (Byte.to_N x =? 0)%N; [discriminate|].
  destruct (is_pointer (Byte.to_N x)).
  - apply bind_not_diverge;
      [destruct (unpack_B _) as [b2| |] eqn:E; try discriminate;
       revert E; unfold unpack_B;
       destruct (slice _ _ _) as [|? [|? ?]]; discriminate|].
    intros b2 _. cbv zeta.
    apply bind_not_diverge; [apply Hderef|discriminate].
  - cbv zeta. unfold unpack_s.
    destruct (length (slice response (position + 1)
                            (position + 1 + N.to_nat (Byte.to_N x)))
              =? N.to_nat (Byte.to_N x)) eqn:El; [|discriminate].
    cbn [bind].
    apply bind_not_diverge;
      [unfold bytes_decode; destruct (Utf8.decode _); discriminate|].
    intros label _. apply IH. lia.
Qed.

Lemma depth_networkToString_ends (limit : nat) :
  forall (response : bytes) (start : nat),
    Depth.networkToString limit response start <> Diverge.
Proof.
  induction limit as [|limit IH]; intros response start; [discriminate|].
  rewrite depth_networkToString_S.
  apply depth_loop_ends; [intros offset; apply IH|lia].
Qed.

Lemma depth_pointer (limit : nat) (response : bytes) (start : nat)
      (x y : byte) :
  nth_error response start = Some x ->
  is_pointer (Byte.to_N x) = true ->
  nth_error response (start + 1) = Some y ->
  Depth.networkToString (S limit) response start =
  (r <- Depth.networkToString limit response
          (N.to_nat (pointer_offset (Byte.to_N x) (Byte.to_N y))) ;;
   Ret (fst r, start + 2)).
Proof.
  intros Hx Hp Hy.
  rewrite depth_networkToString_S, depth_loop_S, unpack_B_at, Hx.
  cbn [bind].
  assert (Hz : (Byte.to_N x =? 0)%N = false).
  { destruct (Byte.to_N x =? 0)%N eqn:E; [|reflexivity].
    apply N.eqb_eq in E. rewrite E in Hp. discriminate. }
  rewrite Hz, Hp.
  replace (start + 2) with (start + 1 + 1) at 1 by lia.
  rewrite unpack_B_at, Hy. reflexivity.
Qed.

Lemma depth_pointer_cycle (response : bytes) (start : nat) (x y : byte) :
  nth_error response start = Some x ->
  is_pointer (Byte.to_N x) = true ->
  nth_error response (start + 1) = Some y ->
  N.to_nat (pointer_offset (Byte.to_N x) (Byte.to_N y)) = start ->
  forall limit,
    Depth.networkToString limit response start = Raise RecursionError.
Proof.
  intros Hx Hp Hy Hself.
  induction limit as [|limit IH]; [reflexivity|].
  rewrite (depth_pointer limit response start x y Hx Hp Hy), Hself, IH.
  reflexivity.
Qed.

(** C7, as the code has it. [networkToString] ends on every message,
    with a name or with an exception. It checks no pointer target and
    counts no hops: a pointer is followed wherever it leads, each hop
    being one more nested call, so that a pointer to its own offset
    ends with [RecursionError] whatever the recursion limit; a start at
    or beyond the end of the message raises [struct.error]. *)
Theorem networkToString_always_ends (limit : nat) (response : bytes)
        (start : nat) :
  Depth.networkToString limit response start <> Diverge
  /\ (length response <= start ->
      Depth.networkToString (S limit) response start = Raise StructError)
  /\ (forall x y,
         nth_error response start = Some x ->
         is_pointer (Byte.to_N x) = true ->
         nth_error response (start + 1) = Some y ->
         Depth.networkToString (S limit) response start
         = (r <- Depth.networkToString limit response
                   (N.to_nat (pointer_offset (Byte.to_N x) (Byte.to_N y))) ;;
            Ret (fst r, start + 2))
         /\ (N.to_nat (pointer_offset (Byte.to_N x) (Byte.to_N y)) = start ->
             Depth.networkToString limit response start
             = Raise RecursionError)).
Proof.
  split; [apply depth_networkToString_ends|]. split.
  - intros Hlen.
    rewrite depth_networkToString_S, depth_loop_S, unpack_B_at.
    assert (E : nth_error response start = None)
      by (now apply nth_error_None).
    now rewrite E.
  - intros x y Hx Hp Hy. split.
    + now apply depth_pointer.
    + intros Hself. now apply (depth_pointer_cycle response start x y).
Qed.

Lemma networkToString_always_ends_witness :
  Depth.networkToString 1000 Vectors.self_pointer 0 = Raise RecursionError.
Proof.
  refine (proj2 (proj2 (proj2 (networkToString_always_ends
                                 1000 Vectors.self_pointer 0))
                       xc0 x00 _ _ _) _); reflexivity.
Defined.

(** C7, the claim as stated fails: a pointer that refers ahead of its
    own position is not refused; the name it leads to is returned. *)
Lemma networkToString_follows_forward_pointer :
  nth_error Vectors.forward_pointer 0 = Some xc0
  /\ N.to_nat (pointer_offset (Byte.to_N xc0) (Byte.to_N x02)) = 2
  /\ forall limit,
      Depth.networkToString (S (S limit)) Vectors.forward_pointer 0
      = Ret (py "a", 2).
Proof.
  split; [reflexivity|]. split; [reflexivity|].
  intros limit. vm_compute. reflexivity.
Qed.

(** ** A deeper stack changes nothing but [RecursionError] *)

Lemma short_refl {A} (m : result A) : short m m.
Proof. now left. Qed.

Lemma short_bind {A B} (m1 m2 : result A) (k1 k2 : A -> result B) :
  short m1 m2 -> (forall a, short (k1 a) (k2 a)) ->
  short (bind m1 k1) (bind m2 k2).
Proof.
  intros [-> | ->] Hk; [|now right].
  destruct m2; cbn [bind]; [apply Hk|now left|now left].
Qed.

Lemma short_call {A} (l l' : nat) (f f' : nat -> result A) :
  l <= l' -> (forall a a', a <= a' -> short (f a) (f' a')) ->
  short (Depth.call l f) (Depth.call l' f').
Proof.
  intros Hle Hf. destruct l as [|l]; [now right|].
  destruct l' as [|l']; [lia|]. apply Hf. lia.
Qed.

Lemma short_ret {A} (m1 m2 : result A) (a : A) :
  short m1 m2 -> m1 = Ret a -> m2 = Ret a.
Proof. intros [-> | ->] H; [exact H|discriminate]. Qed.

Lemma depth_loop_short (d1 d2 : nat -> result (str * nat))
      (response : bytes) :
  (forall offset, short (d1 offset) (d2 offset)) ->
  forall turns toReturn position,
    short (Depth.networkToString_loop d1 turns response toReturn position)
          (Depth.networkToString_loop d2 turns response toReturn position).
Proof.
  intros Hd. induction turns as [|turns IH]; intros toReturn position;
    [apply short_refl|].
  rewrite !depth_loop_S.
  apply short_bind; [apply short_refl|]. intros len.
  destruct (len =? 0)%N; [apply short_refl|].
  destruct (is_pointer len).
  - apply short_bind; [apply short_refl|]. intros b2. cbv zeta.
    apply short_bind; [apply Hd|]. intros r. apply short_refl.
  - cbv zeta. apply short_bind; [apply short_refl|]. intros raw.
    apply short_bind; [apply short_refl|]. intros label. apply IH.
Qed.

Lemma depth_networkToString_short (l : nat) :
  forall l' response start,
    l <= l' ->
    short (Depth.networkToString l response start)
          (Depth.networkToString l' response start).
Proof.
  induction l as [|l IH]; intros l' response start Hle; [now right|].
  destruct l' as [|l']; [lia|].
  rewrite !depth_networkToString_S.
  apply depth_loop_short. intros offset. apply IH. lia.
Qed.

Ltac short_step :=
  first
    [ apply short_refl
    | apply depth_networkToString_short; lia
    | apply short_bind; [|intros ?]
    | apply short_call; [lia|intros ? ? ?] ].

Lemma depth_findType_short (l l' : nat) (data : bytes) :
  l <= l' -> short (Depth.findType l data) (Depth.findType l' data).
Proof. intros H. unfold Depth.findType. repeat short_step. Qed.

Lemma depth_findCname_short (l l' : nat) (data : bytes) :
  l <= l' -> short (Depth.findCname l data) (Depth.findCname l' data).
Proof. intros H. unfold Depth.findCname. repeat short_step. Qed.

Lemma depth_findMail_short (l l' : nat) (data : bytes) :
  l <= l' -> short (Depth.findMail l data) (Depth.findMail l' data).
Proof. intros H. unfold Depth.findMail. repeat short_step. Qed.

Lemma depth_findAnswer_short (l l' : nat) (data : bytes) (n : N) :
  l <= l' ->
  short (Depth.findAnswer l data n) (Depth.findAnswer l' data n).
Proof. intros H. unfold Depth.findAnswer. repeat short_step. Qed.

Lemma depth_createNS_loop_short (l l' : nat) (data : bytes) (turns : nat) :
  l <= l' ->
  forall start nsList,
    short (Depth.createNS_loop l data turns start nsList)
          (Depth.createNS_loop l' data turns start nsList).
Proof.
  intros H. induction turns as [|turns IH]; intros start nsList;
    [apply short_refl|].
  cbn [Depth.createNS_loop]. repeat short_step. apply IH.
Qed.

Lemma depth_createNS_short (l l' : nat) (data : bytes) (n : N) :
  l <= l' -> short (Depth.createNS l data n) (Depth.createNS l' data n).
Proof.
  intros H. unfold Depth.createNS.
  apply short_call; [lia|]. intros a a' Ha.
  apply short_bind; [apply depth_networkToString_short; lia|].
  intros r. apply depth_createNS_loop_short. lia.
Qed.

Lemma depth_parseResponse_short (l l' : nat) (response : option bytes) :
  l <= l' ->
  short (Depth.parseResponse l response) (Depth.parseResponse l' response).
Proof. intros H. unfold Depth.parseResponse. repeat short_step. Qed.

Lemma depth_find_body_short (l l' : nat) (response : option bytes)
      (hostname : str) (mx : bool) (root : str) (count : nat) :
  l <= l' ->
  short (Depth.find_body l response hostname mx root count)
        (Depth.find_body l' response hostname mx root count).
Proof.
  intros H. unfold Depth.find_body.
  apply short_bind; [now apply depth_parseResponse_short|].
  intros [[auth soa] ns_count].
  destruct response as [response|]; [|apply short_refl].
  apply short_bind; [now apply depth_findType_short|]. intros type.
  destruct (str_eqb soa (py "3") || (type =? 6)%N); [apply short_refl|].
  destruct (type =? 5)%N.
  { apply short_bind; [now apply depth_findCname_short|]. intros ?.
    apply short_refl. }
  destruct (str_eqb auth (py "4")).
  { destruct mx.
    - apply short_bind; [now apply depth_findMail_short|]. intros ?.
      apply short_refl.
    - apply short_bind; [now apply depth_findAnswer_short|]. intros ?.
      apply short_refl. }
  apply short_bind; [now apply depth_createNS_short|]. intros ?.
  apply short_refl.
Qed.

(** ** One hop under the limit *)

Lemma depth_networkToString_in_bounds (limit : nat) (response : bytes)
      (start : nat) (r : str * nat) :
  Depth.networkToString limit response start = Ret r ->
  start < length response.
Proof.
  destruct limit as [|limit]; [discriminate|].
  rewrite depth_networkToString_S, depth_loop_S, unpack_B_at.
  destruct (nth_error response start) eqn:E; [|discriminate].
  intros _. apply nth_error_Some. congruence.
Qed.

Lemma depth_findType_length (limit : nat) (response : bytes) (type : N) :
  Depth.findType limit response = Ret type -> 12 <= length response.
Proof.
  destruct limit as [|limit]; [discriminate|].
  unfold Depth.findType. cbn [Depth.call]. intros H.
  destruct (Depth.networkToString limit response 12) as [r| |] eqn:E;
    try discriminate.
  apply depth_networkToString_in_bounds in E. lia.
Qed.

(** A referral, seen with [d] frames left above the frame of [find]:
    with as many frames or more, the body of [find] calls [find] again
    for the first name server. *)
Lemma depth_referral_body (d : nat) (response : bytes) (hostname : str)
      (mx : bool) (root : str) (flags type ns_count : N) (nsname : str)
      (others : list str) :
  Spec.flags response = Ret flags -> (0x1000 <= flags)%N ->
  (flags mod 16 <> 3)%N -> ((flags / 256) mod 16 <> 4)%N ->
  Depth.findType d response = Ret type -> type <> 6%N -> type <> 5%N ->
  Spec.authority_count response = Ret ns_count ->
  Depth.createNS d response ns_count = Ret (nsname :: others) ->
  forall limit count,
    d <= limit ->
    Depth.find_body limit (Some response) hostname mx root count
    = Ret (Call nsname hostname mx root (count + 1)).
Proof.
  intros Hf Hge H3 H4 Ht H6 H5 Hn Hns limit count Hle.
  pose proof (depth_findType_length d response type Ht) as Hlen.
  destruct (parseResponse_fields response flags Hlen Hf Hge)
    as (n & Hn' & Hp).
  rewrite Hn in Hn'. injection Hn' as <-.
  assert (Hd : 1 <= d) by (destruct d; [discriminate|lia]).
  unfold Depth.find_body, Depth.parseResponse.
  destruct limit as [|limit]; [lia|]. cbn [Depth.call].
  rewrite Hp. cbn [bind].
  rewrite (short_ret _ _ type
             (depth_findType_short d (S limit) response Hle) Ht).
  cbn [bind].
  destruct (digit_is (flags mod 16)) as [D3 _]; [apply N.mod_lt; lia|].
  destruct (digit_is ((flags / 256) mod 16)) as [_ D4];
    [apply N.mod_lt; lia|].
  apply N.eqb_neq in H3, H6, H5, H4.
  rewrite D3, D4, H3, H6, H5, H4. cbn [orb].
  rewrite (short_ret _ _ (nsname :: others)
             (depth_createNS_short d (S limit) response ns_count Hle) Hns).
  reflexivity.
Qed.

Lemma depth_constructQuery (limit : nat) (ID : N) (hostname : str)
      (mx : bool) :
  Depth.constructQuery (S (S limit)) ID hostname mx
  = constructQuery ID hostname mx.
Proof. reflexivity. Qed.

(** What [sendToServer] does with a datagram that comes back: the stack
    ran out before anything was sent, or the query left. *)
Lemma depth_sendToServer_reply (limit : nat) (x : exchange)
      (server hostname : str) (mx : bool) (datagram qname : bytes) :
  reply x = Reply datagram -> stringToNetwork hostname = Ret qname ->
  (limit < 3 /\
   Depth.sendToServer limit x server hostname mx
   = (Raise RecursionError, []))
  \/ (3 <= limit /\
      Depth.sendToServer limit x server hostname mx
      = (Ret (Some (recv 4096 datagram)),
         [Sent server (the_query x hostname mx)])).
Proof.
  intros Hr Hq.
  destruct limit as [|[|[|limit]]].
  - left. split; [lia|reflexivity].
  - left. split; [lia|reflexivity].
  - left. split; [lia|].
    unfold Depth.sendToServer, Depth.constructQuery, pack_6H, pack_HH.
    cbn [Depth.call].
    rewrite (pack_H_ok _ (randint_id (draw x))).
    rewrite !(pack_H_ok 0), !(pack_H_ok 1) by reflexivity.
    reflexivity.
  - right. split; [lia|].
    unfold Depth.sendToServer. rewrite depth_constructQuery.
    rewrite (constructQuery_the_query x hostname mx qname Hq), Hr.
    reflexivity.
Qed.

Lemma depth_find_S (limit : nat) (x : exchange) (env : list exchange)
      (server hostname : str) (mx : bool) (root : str) (count : nat) :
  Depth.find (S limit) (x :: env) server hostname mx root count =
  let (response, sent) := Depth.sendToServer limit x server hostname mx in
  match response <- response ;;
        Depth.find_body limit response hostname mx root count with
  | Ret (Done val) => (Ret val, sent)
  | Ret (Call server' hostname' mx' root' count') =>
      let (val, sent') :=
        Depth.find limit env server' hostname' mx' root' count' in
      (val, sent ++ sent')
  | Raise e => (Raise e, sent)
  | Diverge => (Diverge, sent)
  end.
Proof. reflexivity. Qed.

(** ** Chains of referrals under the limit *)

Section Referrals.

Variables (d : nat) (datagram qname : bytes) (hostname : str) (mx : bool)
          (root : str) (flags type ns_count : N) (nsname : str)
          (others : list str).

Hypothesis Hd : 3 <= d.
Hypothesis Hq : stringToNetwork hostname = Ret qname.
Hypothesis Hf : Spec.flags (recv 4096 datagram) = Ret flags.
Hypothesis Hge : (0x1000 <= flags)%N.
Hypothesis H3 : (flags mod 16 <> 3)%N.
Hypothesis H4 : ((flags / 256) mod 16 <> 4)%N.
Hypothesis Ht : Depth.findType d (recv 4096 datagram) = Ret type.
Hypothesis H6 : type <> 6%N.
Hypothesis H5 : type <> 5%N.
Hypothesis Hn : Spec.authority_count (recv 4096 datagram) = Ret ns_count.
Hypothesis Hns :
  Depth.createNS d (recv 4096 datagram) ns_count = Ret (nsname :: others).

Lemma referral_body_or_overflow (limit count : nat) :
  Depth.find_body limit (Some (recv 4096 datagram)) hostname mx root count
  = Ret (Call nsname hostname mx root (count + 1))
  \/ Depth.find_body limit (Some (recv 4096 datagram)) hostname mx root
                     count
     = Raise RecursionError.
Proof.
  pose proof (depth_find_body_short limit (Nat.max limit d)
                (Some (recv 4096 datagram)) hostname mx root count
                (Nat.le_max_l _ _)) as S.
  rewrite (depth_referral_body d (recv 4096 datagram) hostname mx root
             flags type ns_count nsname others Hf Hge H3 H4 Ht H6 H5 Hn Hns
             (Nat.max limit d) count (Nat.le_max_r _ _)) in S.
  exact S.
Qed.

(** With room for its hops, a run of referrals is walked to its end. *)
Lemma referral_chain_fits (draws : list N) :
  forall (env : list exchange) (server : str) (count limit : nat),
    d + length draws <= limit ->
    exists sent,
      length sent = length draws /\
      Depth.find limit (replies datagram draws ++ env) server hostname mx
                 root count =
      (fst (Depth.find (limit - length draws) env
                       (match draws with [] => server | _ => nsname end)
                       hostname mx root (count + length draws)),
       sent ++ snd (Depth.find (limit - length draws) env
                               (match draws with
                                | [] => server
                                | _ => nsname
                                end)
                               hostname mx root (count + length draws))).
Proof.
  induction draws as [|dr draws IH]; intros env server count limit Hlim.
  - exists []. split; [reflexivity|].
    cbn [replies map app length]. rewrite Nat.add_0_r, Nat.sub_0_r.
    apply surjective_pairing.
  - cbn [length] in Hlim.
    destruct limit as [|limit]; [lia|].
    destruct (IH env nsname (count + 1) limit) as (sent & Hlen & Hfind);
      [lia|].
    exists (Sent server
                 (the_query {| draw := dr; reply := Reply datagram |}
                            hostname mx) :: sent).
    split; [simpl; now rewrite Hlen|].
    cbn [replies map app]. fold (replies datagram draws).
    rewrite depth_find_S.
    destruct (depth_sendToServer_reply limit
                {| draw := dr; reply := Reply datagram |} server hostname
                mx datagram qname eq_refl Hq) as [[Hlt _]|[_ ->]]; [lia|].
    cbn [bind].
    rewrite (depth_referral_body d (recv 4096 datagram) hostname mx root
               flags type ns_count nsname others Hf Hge H3 H4 Ht H6 H5 Hn
               Hns limit count) by lia.
    rewrite Hfind. cbn [fst snd length app Nat.sub].
    replace (count + 1 + length draws) with (count + S (length draws))
      by lia.
    assert (E : match draws with [] => nsname | _ :: _ => nsname end
                = nsname) by (destruct draws; reflexivity).
    rewrite E. reflexivity.
Qed.

(** A run of referrals at least as long as the stack is deep ends with
    [RecursionError], after fewer queries than there were frames. *)
Lemma referral_chain_overflows (limit : nat) :
  forall (draws : list N) (env : list exchange) (server : str)
         (count : nat),
    limit <= length draws ->
    fst (Depth.find limit (replies datagram draws ++ env) server hostname
                    mx root count) = Raise RecursionError
    /\ length (snd (Depth.find limit (replies datagram draws ++ env) server
                               hostname mx root count)) <= limit.
Proof.
  induction limit as [|limit IH]; intros draws env server count Hlen.
  - destruct (replies datagram draws ++ env); split; cbn; lia || reflexivity.
  - destruct draws as [|dr draws]; [cbn in Hlen; lia|].
    cbn [length] in Hlen.
    cbn [replies map app]. fold (replies datagram draws).
    rewrite depth_find_S.
    destruct (depth_sendToServer_reply limit
                {| draw := dr; reply := Reply datagram |} server hostname
                mx datagram qname eq_refl Hq) as [[_ ->]|[_ ->]].
    { cbn. split; [reflexivity|lia]. }
    cbn [bind].
    destruct (referral_body_or_overflow limit count) as [-> | ->].
    + destruct (IH draws env nsname (count + 1)) as [Hfst Hsnd]; [lia|].
      destruct (Depth.find limit (replies datagram draws ++ env) nsname
                           hostname mx root (count + 1)) as [val sent'].
      cbn [fst snd] in *. split; [exact Hfst|]. cbn [app length]. lia.
    + cbn. split; [reflexivity|lia].
Qed.

End Referrals.

(** ** The queries of a walk under the limit *)

(** A query takes three frames above the frame of [find]: those of
    [sendToServer], [constructQuery] and [stringToNetwork]. *)
Lemma depth_sendToServer_low (limit : nat) (x : exchange)
      (server hostname : str) (mx : bool) :
  limit < 3 ->
  Depth.sendToServer limit x server hostname mx
  = (Raise RecursionError, []).
Proof.
  intros Hlt. destruct limit as [|[|[|limit]]]; [| | |lia].
  - reflexivity.
  - reflexivity.
  - unfold Depth.sendToServer, Depth.constructQuery, pack_6H, pack_HH.
    cbn [Depth.call].
    rewrite (pack_H_ok _ (randint_id (draw x))).
    rewrite !(pack_H_ok 0), !(pack_H_ok 1) by reflexivity.
    reflexivity.
Qed.

Lemma depth_sendToServer_sent (limit : nat) (x : exchange)
      (server hostname : str) (mx : bool) :
  length (snd (Depth.sendToServer limit x server hostname mx)) <= 1.
Proof.
  unfold Depth.sendToServer. destruct limit as [|limit]; [cbn; lia|].
  destruct (Depth.constructQuery limit _ hostname mx); [|cbn; lia|cbn; lia].
  destruct (reply x); cbn; lia.
Qed.

Lemma depth_find_low (limit : nat) (x : exchange) (env : list exchange)
      (server hostname : str) (mx : bool) (root : str) (count : nat) :
  limit <= 3 ->
  Depth.find limit (x :: env) server hostname mx root count
  = (Raise RecursionError, []).
Proof.
  intros Hle. destruct limit as [|limit]; [reflexivity|].
  rewrite depth_find_S, depth_sendToServer_low by lia. reflexivity.
Qed.

(** Every query of a walk is sent from one more nested call of [find]:
    there are at most as many as the stack has room for. *)
Lemma depth_find_queries (limit : nat) :
  forall (env : list exchange) (server hostname : str) (mx : bool)
         (root : str) (count : nat),
    length (snd (Depth.find limit env server hostname mx root count))
    <= limit - 3.
Proof.
  induction limit as [|limit IH]; intros env server hostname mx root count;
    [destruct env; cbn; lia|].
  destruct env as [|x env]; [cbn; lia|].
  destruct (Nat.lt_ge_cases limit 3) as [Hlt|Hge].
  { rewrite depth_find_low by lia. cbn. lia. }
  rewrite depth_find_S.
  pose proof (depth_sendToServer_sent limit x server hostname mx) as Hs.
  destruct (Depth.sendToServer limit x server hostname mx)
    as [response sent].
  cbn [snd] in Hs.
  destruct (response <- response ;;
            Depth.find_body limit response hostname mx root count)
    as [[val|server' hostname' mx' root' count']|e|];
    try (cbn [snd]; lia).
  specialize (IH env server' hostname' mx' root' count').
  destruct (Depth.find limit env server' hostname' mx' root' count')
    as [val sent'].
  cbn [snd] in *. rewrite length_app. lia.
Qed.

(** C6, as the code has it. [find] counts its hops but compares the
    count with no bound, and no outcome of its own ends a long walk.
    Every hop is one more nested call. For a referral that [find] can
    read there is a number of frames, the room that one hop takes,
    such that a run of referrals of any length is walked to its end
    wherever the recursion limit leaves that room above the run: one
    query for each, the count growing by one each time, the walk going
    on after it. A run at least as long as the stack is deep ends with
    the [RecursionError] of the interpreter, and no walk sends more
    queries than the limit leaves frames, less the three that a query
    takes. *)
Theorem find_hops_limited_by_the_stack
        (d : nat) (datagram qname : bytes) (hostname : str) (mx : bool)
        (root : str) (flags type ns_count : N) (nsname : str)
        (others : list str) :
  stringToNetwork hostname = Ret qname ->
  Spec.flags (recv 4096 datagram) = Ret flags -> (0x1000 <= flags)%N ->
  Depth.findType d (recv 4096 datagram) = Ret type ->
  (flags mod 16 <> 3)%N -> type <> 6%N -> type <> 5%N ->
  ((flags / 256) mod 16 <> 4)%N ->
  Spec.authority_count (recv 4096 datagram) = Ret ns_count ->
  Depth.createNS d (recv 4096 datagram) ns_count = Ret (nsname :: others) ->
  (exists room,
      forall (draws : list N) (env : list exchange) (server : str)
             (count limit : nat),
        room + length draws <= limit ->
        exists sent,
          length sent = length draws /\
          Depth.find limit (replies datagram draws ++ env) server hostname
                     mx root count
          = (fst (Depth.find (limit - length draws) env
                             (match draws with
                              | [] => server
                              | _ => nsname
                              end)
                             hostname mx root (count + length draws)),
             sent ++ snd (Depth.find (limit - length draws) env
                                     (match draws with
                                      | [] => server
                                      | _ => nsname
                                      end)
                                     hostname mx root
                                     (count + length draws))))
  /\ (forall (draws : list N) (env : list exchange) (server : str)
             (count limit : nat),
         limit <= length draws ->
         fst (Depth.find limit (replies datagram draws ++ env) server
                         hostname mx root count)
         = Raise RecursionError)
  /\ (forall (limit : nat) (env : list exchange) (server : str)
             (count : nat),
         length (snd (Depth.find limit env server hostname mx root count))
         <= limit - 3).
Proof.
  intros Hq Hf Hge Ht H3 H6 H5 H4 Hn Hns.
  assert (Hd : 3 <= Nat.max d 3) by apply Nat.le_max_r.
  assert (Ht' : Depth.findType (Nat.max d 3) (recv 4096 datagram)
                = Ret type).
  { apply (short_ret (Depth.findType d (recv 4096 datagram))); [|exact Ht].
    apply depth_findType_short, Nat.le_max_l. }
  assert (Hns' : Depth.createNS (Nat.max d 3) (recv 4096 datagram) ns_count
                 = Ret (nsname :: others)).
  { apply (short_ret (Depth.createNS d (recv 4096 datagram) ns_count));
      [|exact Hns].
    apply depth_createNS_short, Nat.le_max_l. }
  split; [|split].
  - exists (Nat.max d 3). intros draws env server count limit Hfits.
    apply (referral_chain_fits (Nat.max d 3) datagram qname hostname mx
             root flags type ns_count nsname others Hd Hq Hf Hge H3 H4 Ht'
             H6 H5 Hn Hns' draws env server count limit Hfits).
  - intros draws env server count limit Hover.
    apply (referral_chain_overflows (Nat.max d 3) datagram qname hostname
             mx root flags type ns_count nsname others Hd Hq Hf Hge H3 H4
             Ht' H6 H5 Hn Hns' limit draws env server count Hover).
  - intros limit env server count. apply depth_find_queries.
Qed.

Lemma find_hops_limited_by_the_stack_witness :
  (exists room,
      forall (draws : list N) (env : list exchange) (server : str)
             (count limit : nat),
        room + length draws <= limit ->
        exists sent,
          length sent = length draws /\
          Depth.find limit (replies Vectors.delegation draws ++ env) server
                     (py "www.example") false Vectors.root_server count
          = (fst (Depth.find (limit - length draws) env
                             (match draws with
                              | [] => server
                              | _ => py "ns.example"
                              end)
                             (py "www.example") false Vectors.root_server
                             (count + length draws)),
             sent ++ snd (Depth.find (limit - length draws) env
                                     (match draws with
                                      | [] => server
                                      | _ => py "ns.example"
                                      end)
                                     (py "www.example") false
                                     Vectors.root_server
                                     (count + length draws))))
  /\ (forall (draws : list N) (env : list exchange) (server : str)
             (count limit : nat),
         limit <= length draws ->
         fst (Depth.find limit (replies Vectors.delegation draws ++ env)
                         server (py "www.example") false
                         Vectors.root_server count)
         = Raise RecursionError)
  /\ (forall (limit : nat) (env : list exchange) (server : str)
             (count : nat),
         length (snd (Depth.find limit env server (py "www.example") false
                                 Vectors.root_server count))
         <= limit - 3).
Proof.
  refine (find_hops_limited_by_the_stack
            3 Vectors.delegation (Wire.name "www.example")
            (py "www.example") false Vectors.root_server 0x8000 2 1
            (py "ns.example") [] _ _ _ _ _ _ _ _ _ _);
    try reflexivity; vm_compute; discriminate.
Defined.

(** Three frames above that of [find] are room enough for a hop on
    [Vectors.delegation]. *)
Lemma delegation_chain_fits (draws : list N) (env : list exchange)
      (server : str) (count limit : nat) :
  3 + length draws <= limit ->
  exists sent,
    length sent = length draws /\
    Depth.find limit (replies Vectors.delegation draws ++ env) server
               (py "www.example") false Vectors.root_server count
    = (fst (Depth.find (limit - length draws) env
                       (match draws with
                        | [] => server
                        | _ => py "ns.example"
                        end)
                       (py "www.example") false Vectors.root_server
                       (count + length draws)),
       sent ++ snd (Depth.find (limit - length draws) env
                               (match draws with
                                | [] => server
                                | _ => py "ns.example"
                                end)
                               (py "www.example") false Vectors.root_server
                               (count + length draws))).
Proof.
  apply (referral_chain_fits 3 Vectors.delegation (Wire.name "www.example")
           (py "www.example") false Vectors.root_server 0x8000 2 1
           (py "ns.example") []); try reflexivity; try lia;
    vm_compute; discriminate.
Qed.

(** C6, the claim as stated fails: on a run of referrals that does not
    end, the walk is not stopped after a number of hops that the
    resolver fixes, and not with an outcome of the resolver. It goes on
    until the stack of the interpreter is full and what comes out is
    the [RecursionError] of the interpreter: a thousand hops with a
    thousand frames have this end, and for every number there is a
    recursion limit under which the walk sends more queries than
    that. *)
Lemma find_stops_at_the_recursion_limit :
  fst (Depth.find 1000 (replies Vectors.delegation (repeat 0%N 1000))
                  Vectors.root_server (py "www.example") false
                  Vectors.root_server 0)
  = Raise RecursionError
  /\ (forall bound,
         exists limit sent,
           bound < length sent /\
           Depth.find limit (replies Vectors.delegation (repeat 0%N limit))
                      Vectors.root_server (py "www.example") false
                      Vectors.root_server 0
           = (Raise RecursionError, sent)).
Proof.
  assert (H : forall limit,
             3 <= limit ->
             exists sent,
               length sent = limit - 3 /\
               Depth.find limit
                          (replies Vectors.delegation (repeat 0%N limit))
                          Vectors.root_server (py "www.example") false
                          Vectors.root_server 0
               = (Raise RecursionError, sent)).
  { intros limit Hle.
    assert (E : repeat 0%N limit
                = repeat 0%N (limit - 3) ++ repeat 0%N 3)
      by (rewrite <- repeat_app; f_equal; lia).
    rewrite E. unfold replies at 1. rewrite map_app.
    fold (replies Vectors.delegation (repeat 0%N (limit - 3))).
    fold (replies Vectors.delegation (repeat 0%N 3)).
    destruct (delegation_chain_fits (repeat 0%N (limit - 3))
                (replies Vectors.delegation (repeat 0%N 3))
                Vectors.root_server 0 limit) as (sent & Hlen & Hfind);
      [rewrite repeat_length; lia|].
    rewrite repeat_length in *.
    exists sent. split; [exact Hlen|].
    rewrite Hfind. cbn [repeat replies map].
    rewrite depth_find_low by lia. cbn [fst snd].
    now rewrite app_nil_r. }
  split.
  - destruct (H 1000) as (sent & _ & ->); [lia|reflexivity].
  - intros bound. destruct (H (bound + 4)) as (sent & Hlen & Hfind); [lia|].
    exists (bound + 4), sent. split; [lia|exact Hfind].
Qed.

(** ** The loop of [main] under the limit *)

(** The servers whose walks fail each get their line, and the loop goes
    on with the servers after them. *)
Lemma main_loop_failed_prefix (limit : nat) (failed : list str) :
  forall (rest : list str) (envs : list (list exchange)) (hostname : str)
         (mx : bool),
    all_fail limit failed envs hostname mx ->
    Depth.main_loop limit (failed ++ rest) envs hostname mx
    = (fst (Depth.main_loop limit rest (skipn (length failed) envs)
                            hostname mx),
       failed_output limit failed envs hostname mx
         ++ snd (Depth.main_loop limit rest (skipn (length failed) envs)
                                 hostname mx)).
Proof.
  induction failed as [|server failed IH]; intros rest envs hostname mx H.
  - cbn. now destruct (Depth.main_loop limit rest envs hostname mx).
  - destruct H as [Hfail Hrest].
    cbn [app Depth.main_loop failed_output length]. rewrite skipn_S_tl.
    rewrite (IH rest (tl envs) hostname mx Hrest).
    destruct (Depth.find limit (hd [] envs) server hostname mx server 0)
      as [val sent].
    cbn [fst snd] in *. rewrite <- app_assoc. cbn [app].
    destruct Hfail as [->|[e ->]]; reflexivity.
Qed.

(** X18. The first value ends the lookup: when the walks from the
    servers before [server] fail, by returning [None] or by any
    exception, [RecursionError] included, and the walk from [server]
    returns a value, [main] prints one failure line for each of the
    former, then the value, and contacts none of the servers after
    it. *)
Theorem main_first_value_wins (limit : nat) (failed : list str)
        (server : str) (rest : list str) (envs : list (list exchange))
        (hostname : str) (mx : bool) (val : str) (sent : list event) :
  all_fail limit failed envs hostname mx ->
  Depth.find limit (hd [] (skipn (length failed) envs)) server hostname mx
             server 0
  = (Ret (Some val), sent) ->
  Depth.main_loop limit (failed ++ server :: rest) envs hostname mx
  = (Ret tt,
     failed_output limit failed envs hostname mx
       ++ map Packet sent ++ [Line (report mx hostname val)]).
Proof.
  intros Hfail Hfind.
  rewrite (main_loop_failed_prefix limit failed (server :: rest) envs
                                   hostname mx Hfail).
  cbn [Depth.main_loop]. rewrite Hfind. reflexivity.
Qed.

Lemma main_first_value_wins_witness :
  Depth.main_loop 100 ([py "a.root"] ++ py "b.root" :: [py "c.root"])
                  [[Wire.answered Vectors.pointer_cycle];
                   [Wire.answered Vectors.a_answer]]
                  (py "www.example") false
  = (Ret tt,
     failed_output 100 [py "a.root"]
                   [[Wire.answered Vectors.pointer_cycle];
                    [Wire.answered Vectors.a_answer]]
                   (py "www.example") false
       ++ map Packet
              [Sent (py "b.root")
                    (the_query (Wire.answered Vectors.a_answer)
                               (py "www.example") false)]
       ++ [Line (report false (py "www.example") (py "93.184.216.34"))]).
Proof.
  refine (main_first_value_wins 100 [py "a.root"] (py "b.root")
            [py "c.root"] _ (py "www.example") false (py "93.184.216.34")
            _ _ _).
  - split; [right; exists RecursionError; vm_compute; reflexivity|exact I].
  - vm_compute. reflexivity.
Defined.

(** X19. When no walk gives a value, whether it returns [None] or
    raises, [RecursionError] included, [main] prints one failure line
    for each server of the list, in order, and returns. *)
Theorem main_all_fail (limit : nat) (servers : list str)
        (envs : list (list exchange)) (hostname : str) (mx : bool) :
  all_fail limit servers envs hostname mx ->
  Depth.main_loop limit servers envs hostname mx
  = (Ret tt, failed_output limit servers envs hostname mx)
  /\ filter (fun o => match o with Line _ => true | Packet _ => false end)
            (failed_output limit servers envs hostname mx)
     = map (fun server => Line (failure_line server)) servers.
Proof.
  intros H. split.
  - pose proof (main_loop_failed_prefix limit servers [] envs hostname mx H)
      as P.
    rewrite !app_nil_r in P. exact P.
  - clear H. revert envs.
    induction servers as [|server servers IH]; intros envs; [reflexivity|].
    cbn [failed_output map]. rewrite filter_app. cbn [filter].
    rewrite IH.
    replace (filter _ (map Packet _)) with (@nil output); [reflexivity|].
    induction (snd (Depth.find limit (hd [] envs) server hostname mx
                               server 0));
      [reflexivity|assumption].
Qed.

Lemma main_all_fail_witness :
  Depth.main_loop 100 [py "a.root"; py "b.root"; py "c.root"]
                  [[{| draw := 1; reply := Timeout |}];
                   [Wire.answered Vectors.pointer_cycle];
                   replies Vectors.delegation (repeat 0%N 100)]
                  (py "www.example") false
  = (Ret tt,
     failed_output 100 [py "a.root"; py "b.root"; py "c.root"]
                   [[{| draw := 1; reply := Timeout |}];
                    [Wire.answered Vectors.pointer_cycle];
                    replies Vectors.delegation (repeat 0%N 100)]
                   (py "www.example") false).
Proof.
  refine (proj1 (main_all_fail 100 [py "a.root"; py "b.root"; py "c.root"]
                   _ (py "www.example") false _)).
  split; [right; exists TypeError; vm_compute; reflexivity|].
  split; [right; exists RecursionError; vm_compute; reflexivity|].
  split; [right; exists RecursionError; vm_compute; reflexivity|exact I].
Defined.

(** ** The two readings of the source agree

    What the budgeted definitions return or raise is what the
    definitions of [Depth] give once the recursion limit leaves room
    for the calls: the statements on single hops carry over to the
    interpreter with its limit. *)

Lemma settled_refl {A} (m : result A) : settled m m.
Proof. intros _. reflexivity. Qed.

Lemma settled_bind {A B} (m1 m2 : result A) (k1 k2 : A -> result B) :
  settled m1 m2 -> (forall a, settled (k1 a) (k2 a)) ->
  settled (bind m1 k1) (bind m2 k2).
Proof.
  intros Hm Hk H. destruct m1 as [a|e|].
  - rewrite Hm by discriminate. cbn [bind] in *. now apply Hk.
  - rewrite Hm by discriminate. reflexivity.
  - now contradiction H.
Qed.

Lemma depth_loop_settled (response : bytes) (fuel : nat) :
  forall (limit turns : nat) (toReturn : str) (position : nat),
    fuel <= limit -> length response - position < turns ->
    settled (networkToString_loop fuel response toReturn position)
            (Depth.networkToString_loop (Depth.networkToString limit response)
                                        turns response toReturn position).
Proof.
  induction fuel as [|fuel IH];
    intros limit turns toReturn position Hle Hturns.
  { intros H. now contradiction H. }
  destruct turns as [|turns]; [lia|].
  rewrite loop_S, depth_loop_S, unpack_B_at.
  destruct (nth_error response position) as [x|] eqn:Ex;
    [|apply settled_refl].
  assert (Hp : position < length response)
    by (apply nth_error_Some; congruence).
  cbn [bind]. destruct (Byte.to_N x =? 0)%N; [apply settled_refl|].
  destruct (is_pointer (Byte.to_N x)).
  - apply settled_bind; [apply settled_refl|]. intros b2. cbv zeta.
    apply settled_bind; [|intros r; apply settled_refl].
    destruct limit as [|limit]; [lia|].
    rewrite depth_networkToString_S. apply IH; lia.
  - cbv zeta. apply settled_bind; [apply settled_refl|]. intros raw.
    apply settled_bind; [apply settled_refl|]. intros label.
    apply IH; lia.
Qed.

Lemma depth_networkToString_settled (fuel limit : nat) (response : bytes)
      (start : nat) :
  fuel < limit ->
  settled (networkToString fuel response start)
          (Depth.networkToString limit response start).
Proof.
  intros Hlt. destruct limit as [|limit]; [lia|].
  rewrite depth_networkToString_S. unfold networkToString.
  apply depth_loop_settled; lia.
Qed.

Ltac settled_step :=
  first
    [ apply settled_refl
    | apply depth_networkToString_settled; lia
    | apply settled_bind; [|intros ?] ].

Lemma depth_findType_settled (fuel limit : nat) (data : bytes) :
  fuel + 2 <= limit ->
  settled (findType fuel data) (Depth.findType limit data).
Proof.
  intros H. destruct limit as [|limit]; [lia|].
  unfold findType, Depth.findType. cbn [Depth.call].
  repeat settled_step.
Qed.

Lemma depth_findCname_settled (fuel limit : nat) (data : bytes) :
  fuel + 2 <= limit ->
  settled (findCname fuel data) (Depth.findCname limit data).
Proof.
  intros H. destruct limit as [|limit]; [lia|].
  unfold findCname, Depth.findCname. cbn [Depth.call].
  repeat settled_step.
Qed.

Lemma depth_findMail_settled (fuel limit : nat) (data : bytes) :
  fuel + 2 <= limit ->
  settled (findMail fuel data) (Depth.findMail limit data).
Proof.
  intros H. destruct limit as [|limit]; [lia|].
  unfold findMail, Depth.findMail. cbn [Depth.call].
  repeat settled_step.
Qed.

Lemma depth_findAnswer_settled (fuel limit : nat) (data : bytes) (n : N) :
  fuel + 2 <= limit ->
  settled (findAnswer fuel data n) (Depth.findAnswer limit data n).
Proof.
  intros H. destruct limit as [|limit]; [lia|].
  unfold findAnswer, Depth.findAnswer. cbn [Depth.call].
  repeat settled_step.
Qed.

Lemma depth_createNS_loop_settled (fuel limit : nat) (data : bytes)
      (turns : nat) :
  fuel < limit ->
  forall start nsList,
    settled (createNS_loop fuel data turns start nsList)
            (Depth.createNS_loop limit data turns start nsList).
Proof.
  intros H. induction turns as [|turns IH]; intros start nsList;
    [apply settled_refl|].
  cbn [createNS_loop Depth.createNS_loop]. repeat settled_step. apply IH.
Qed.

Lemma depth_createNS_settled (fuel limit : nat) (data : bytes) (n : N) :
  fuel + 2 <= limit ->
  settled (createNS fuel data n) (Depth.createNS limit data n).
Proof.
  intros H. destruct limit as [|limit]; [lia|].
  unfold createNS, Depth.createNS. cbn [Depth.call].
  apply settled_bind; [apply depth_networkToString_settled; lia|].
  intros r. apply depth_createNS_loop_settled. lia.
Qed.

Lemma depth_find_body_settled (fuel limit : nat) (response : option bytes)
      (hostname : str) (mx : bool) (root : str) (count : nat) :
  fuel + 2 <= limit ->
  settled (find_body fuel response hostname mx root count)
          (Depth.find_body limit response hostname mx root count).
Proof.
  intros H. unfold find_body, Depth.find_body, Depth.parseResponse.
  destruct limit as [|limit]; [lia|]. cbn [Depth.call].
  apply settled_bind; [apply settled_refl|].
  intros [[auth soa] ns_count].
  destruct response as [response|]; [|apply settled_refl].
  apply settled_bind; [apply depth_findType_settled; lia|]. intros type.
  destruct (str_eqb soa (py "3") || (type =? 6)%N); [apply settled_refl|].
  destruct (type =? 5)%N.
  { apply settled_bind; [apply depth_findCname_settled; lia|]. intros ?.
    apply settled_refl. }
  destruct (str_eqb auth (py "4")).
  { destruct mx.
    - apply settled_bind; [apply depth_findMail_settled; lia|]. intros ?.
      apply settled_refl.
    - apply settled_bind; [apply depth_findAnswer_settled; lia|]. intros ?.
      apply settled_refl. }
  apply settled_bind; [apply depth_createNS_settled; lia|]. intros ?.
  apply settled_refl.
Qed.

Lemma depth_sendToServer_room (limit : nat) (x : exchange)
      (server hostname : str) (mx : bool) :
  3 <= limit ->
  Depth.sendToServer limit x server hostname mx
  = sendToServer x server hostname mx.
Proof.
  intros H. destruct limit as [|[|[|limit]]]; try lia. reflexivity.
Qed.

(** A walk that comes back on its budget comes back the same, with the
    same queries, under a recursion limit that leaves room for its
    hops. *)
Lemma depth_find_settled (fuel : nat) (env : list exchange) :
  forall (limit : nat) (server hostname : str) (mx : bool) (root : str)
         (count : nat),
    fuel + 3 + length env <= limit ->
    fst (find fuel env server hostname mx root count) <> Diverge ->
    Depth.find limit env server hostname mx root count
    = find fuel env server hostname mx root count.
Proof.
  induction env as [|x env IH];
    intros limit server hostname mx root count Hle Hback.
  { now contradiction Hback. }
  cbn [length] in Hle. destruct limit as [|limit]; [lia|].
  cbn [find Depth.find] in *. rewrite depth_sendToServer_room by lia.
  destruct (sendToServer x server hostname mx) as [response sent].
  assert (S : settled
                (response <- response ;;
                 find_body fuel response hostname mx root count)
                (response <- response ;;
                 Depth.find_body limit response hostname mx root count)).
  { apply settled_bind; [apply settled_refl|]. intros r.
    apply depth_find_body_settled. lia. }
  destruct (response <- response ;;
            find_body fuel response hostname mx root count)
    as [[val|server' hostname' mx' root' count']|e|].
  - rewrite S by discriminate. reflexivity.
  - rewrite S by discriminate.
    rewrite IH; [reflexivity|lia|].
    destruct (find fuel env server' hostname' mx' root' count').
    exact Hback.
  - rewrite S by discriminate. reflexivity.
  - now contradiction Hback.
Qed.

(** The same for the loop of [main]. *)
Lemma depth_main_loop_settled (fuel limit : nat) (networkList : list str) :
  forall (envs : list (list exchange)) (hostname : str) (mx : bool),
    fuel + 3 + length (concat envs) <= limit ->
    fst (main_loop fuel networkList envs hostname mx) <> Diverge ->
    Depth.main_loop limit networkList envs hostname mx
    = main_loop fuel networkList envs hostname mx.
Proof.
  induction networkList as [|server networkList IH];
    intros envs hostname mx Hle Hback; [reflexivity|].
  cbn [main_loop Depth.main_loop] in *.
  assert (Hhd : length (hd [] envs) <= length (concat envs))
    by (destruct envs; cbn [hd concat length]; [lia|rewrite length_app; lia]).
  assert (Htl : length (concat (tl envs)) <= length (concat envs))
    by (destruct envs; cbn [tl concat length]; [lia|rewrite length_app; lia]).
  assert (F : fst (find fuel (hd [] envs) server hostname mx server 0)
              <> Diverge)
    by (destruct (find fuel (hd [] envs) server hostname mx server 0)
          as [[[val|]|e|] sent]; [discriminate|discriminate|discriminate|
                                  now contradiction Hback]).
  rewrite (depth_find_settled fuel (hd [] envs) limit server hostname mx
             server 0) by (lia || exact F).
  destruct (find fuel (hd [] envs) server hostname mx server 0)
    as [[[val|]|e|] sent]; try reflexivity.
  - rewrite IH; [reflexivity|lia|].
    destruct (main_loop fuel networkList (tl envs) hostname mx).
    exact Hback.
  - rewrite IH; [reflexivity|lia|].
    destruct (main_loop fuel networkList (tl envs) hostname mx).
    exact Hback.
Qed.
